(** * go-mlflow: the request dispatcher of the MLflow client

    A shallow embedding of [mlflow.go]: the query flattening [AddQuery], the
    two dispatchers [HandleGet] and [HandlePost], and the endpoint methods
    built on them.  The Go standard library (net/http, net/url, encoding/json,
    strconv, time) is outside the repository: what the client calls of it is
    either modelled here ([strconv], [url.Values.Add], the JSON validity
    scanner) or taken from a [Runtime] record of external behaviours. *)

From Stdlib Require Import ZArith.
From Stdlib.Strings Require Import Byte.
From stdpp Require Import gmap strings list fin_maps.

Set Warnings "-register-all".
Open Scope Z_scope.

(** ** strconv *)

Module strconv.

(** The digits of [formatBits]. *)
Definition digits : string := "0123456789abcdefghijklmnopqrstuvwxyz".

Definition digit (d : Z) : string :=
  match String.get (Z.to_nat d) digits with
  | Some a => String a ""
  | None => ""
  end.

(** The loop of [formatBits] for a magnitude [u] below 2^64: the digits of
    [u] in base [base], least significant first, put in front of [a].  A
    64-bit magnitude has at most 64 digits, which is the [fuel]. *)
Fixpoint formatBits (fuel : nat) (u base : Z) (a : string) : string :=
  match fuel with
  | O => a
  | S fuel =>
      if u <? base then digit u +:+ a
      else formatBits fuel (u / base) base (digit (u mod base) +:+ a)
  end.

(** [strconv.FormatInt(i, base)] for an [int64] and a base from 2 to 36
    (Go panics on another base; the client passes 10). *)
Definition FormatInt (i : Z) (base : Z) : string :=
  if (2 <=? base) && (base <=? 36)
  then if i <? 0 then "-" +:+ formatBits 64 (- i) base ""
       else formatBits 64 i base ""
  else "".

(** [strconv.Itoa(i)] is [FormatInt(int64(i), 10)]. *)
Definition Itoa (i : Z) : string := FormatInt i 10.

(** [strconv.FormatBool]. *)
Definition FormatBool (b : bool) : string :=
  if b then "true" else "false".

End strconv.

(** ** net/url: the query multi-map *)

Module url.

(** [url.Values] is [map[string][]string]. *)
Abbreviation Values := (gmap string (list string)).

(** [v[key]] on a Go map: the zero value (a nil slice) when the key is
    absent. *)
Definition at_key (v : Values) (key : string) : list string := v !!! key.

(** [func (v Values) Add(key, value string)]:
    [v[key] = append(v[key], value)]. *)
Definition Add (v : Values) (key value : string) : Values :=
  <[key := at_key v key ++ [value]]> v.

(** The number of (key, value) entries a multi-map holds: the sum of the
    lengths of its slices. *)
Definition num_entries (v : Values) : nat :=
  map_fold (fun _ vs n => (length vs + n)%nat) 0%nat v.

End url.

(** ** The dynamically typed values handed to the dispatcher *)

(** [type RunStatus string]: a named string type. *)
Record RunStatus := { RunStatus_string : string }.

Definition Running : RunStatus := {| RunStatus_string := "RUNNING" |}.
Definition Scheduled : RunStatus := {| RunStatus_string := "SCHEDULED" |}.
Definition Finished : RunStatus := {| RunStatus_string := "FINISHED" |}.
Definition Failed : RunStatus := {| RunStatus_string := "FAILED" |}.
Definition Killed : RunStatus := {| RunStatus_string := "KILLED" |}.
Definition Uninitialized : RunStatus := {| RunStatus_string := "UNINITIALIZED" |}.

(** Dynamic types that the type switch of [AddQuery] has no case for.  A
    type switch matches the dynamic type exactly, so a named string type such
    as [RunStatus], or an [int32], is not matched by [case string] or
    [case int]. *)
Inductive other :=
| ONil                                           (* the nil interface *)
| ORunStatus (s : RunStatus)                     (* RunStatus *)
| OTags (tags : list (list (string * string)))   (* []map[string]string *)
| OForeign (go_type : string) (repr : string).   (* any further Go type *)

(** A value of type [interface{}], by dynamic type; an [int] or [int64] is
    the integer it denotes.  A Go map is iterated in an order the runtime
    picks; [VMap] holds the entries of the map in the order in which this
    run ranges over them.  Statements quantify over every such list, that is
    over every iteration order; where it matters that the keys of a map are
    pairwise distinct, a statement says so ([NoDup] of the keys). *)
Inductive value :=
| VString (s : string)                 (* string *)
| VInt (n : Z)                         (* int *)
| VInt64 (n : Z)                       (* int64 *)
| VBool (b : bool)                     (* bool *)
| VStrings (xs : list string)          (* []string *)
| VList (vs : list value)              (* []interface{} *)
| VMap (m : list (string * value))     (* map[string]interface{} *)
| VOther (o : other).

(** [map[string]interface{}] with its iteration order. *)
Abbreviation string_map := (list (string * value)).

(** [func AddQuery(q url.Values, key string, value interface{})].  The Go
    function updates the map [q] in place; here it returns the updated map. *)
Fixpoint AddQuery (q : url.Values) (key : string) (value : value) : url.Values :=
  match value with
  | VString value => url.Add q key value
  | VInt value => url.Add q key (strconv.Itoa value)
  | VInt64 value => url.Add q key (strconv.FormatInt value 10)
  | VBool value => url.Add q key (strconv.FormatBool value)
  | VStrings value => foldl (fun q v => url.Add q key v) q value
  | VList value => foldl (fun q v => AddQuery q key v) q value
  | VMap value => foldl (fun q kv => AddQuery q (key +:+ "." +:+ kv.1) kv.2) q value
  | VOther _ => q
  end.

(** The loop of [HandleGet] that flattens a parameter mapping into the
    query: [for key, value := range params { AddQuery(q, key, value) }]. *)
Definition AddQueries (q : url.Values) (m : string_map) : url.Values :=
  foldl (fun q kv => AddQuery q kv.1 kv.2) q m.

(** The value kinds that the spec calls scalar, with the string the code
    stores for each. *)
Definition scalar_string (v : value) : option string :=
  match v with
  | VString s => Some s
  | VInt n => Some (strconv.Itoa n)
  | VInt64 n => Some (strconv.FormatInt n 10)
  | VBool b => Some (strconv.FormatBool b)
  | _ => None
  end.

(** The number of strings, integers and booleans that a value holds, at any
    depth of lists and mappings. *)
Fixpoint count_leaves (v : value) : nat :=
  match v with
  | VString _ | VInt _ | VInt64 _ | VBool _ => 1%nat
  | VStrings xs => length xs
  | VList vs => foldr (fun v n => (count_leaves v + n)%nat) 0%nat vs
  | VMap m => foldr (fun kv n => (count_leaves kv.2 + n)%nat) 0%nat m
  | VOther _ => 0%nat
  end.

(** ** Errors *)

(** The message of a [*json.SyntaxError].  Go renders [InvalidCharacter c
    context] as "invalid character 'c' context" and [UnexpectedEnd] as
    "unexpected end of JSON input". *)
Inductive syntax_msg :=
| UnexpectedEnd
| InvalidCharacter (c : byte) (context : string).

(** A non-nil value of the interface type [error]. *)
Inductive error :=
| SyntaxError (msg : syntax_msg) (Offset : Z)   (* *json.SyntaxError *)
| LibraryError (pkg : string) (msg : string).    (* an error of another package *)

(** What a library call of type [(T, error)] gives: a usable value exactly
    when the error is nil. *)
Inductive result (T : Type) :=
| Ok (x : T)
| Fail (e : error).
Arguments Ok {T} x.
Arguments Fail {T} e.

(** ** encoding/json: the validity scanner run by [json.Unmarshal] *)

Module json.

(** The step functions of the scanner ([scanner.step]). *)
Inductive step_fn :=
| stateBeginValueOrEmpty | stateBeginValue | stateBeginStringOrEmpty
| stateBeginString | stateEndValue | stateEndTop
| stateInString | stateInStringEsc | stateInStringEscU
| stateInStringEscU1 | stateInStringEscU12 | stateInStringEscU123
| stateNeg | state1 | state0 | stateDot | stateDot0
| stateE | stateESign | stateE0
| stateT | stateTr | stateTru
| stateF | stateFa | stateFal | stateFals
| stateN | stateNu | stateNul
| stateError.

(** The codes a step returns. *)
Inductive scan_code :=
| scanContinue | scanBeginLiteral | scanBeginObject | scanObjectKey
| scanObjectValue | scanEndObject | scanBeginArray | scanArrayValue
| scanEndArray | scanSkipSpace | scanEnd | scanError.

Inductive parse_state := parseObjectKey | parseObjectValue | parseArrayValue.

Definition maxNestingDepth : Z := 10000.

(** [type scanner struct]; [parseState] is kept with the innermost
    composite first. *)
Record scanner := {
  step : step_fn;
  endTop : bool;
  parseState : list parse_state;
  err : option error;
  bytes : Z
}.

Definition set_step (s : scanner) (f : step_fn) : scanner :=
  {| step := f; endTop := endTop s; parseState := parseState s;
     err := err s; bytes := bytes s |}.

Definition set_parseState (s : scanner) (ps : list parse_state) : scanner :=
  {| step := step s; endTop := endTop s; parseState := ps;
     err := err s; bytes := bytes s |}.

(** [func (s *scanner) error(c byte, context string) int]. *)
Definition error_at (s : scanner) (c : byte) (context : string)
  : scanner * scan_code :=
  ({| step := stateError; endTop := endTop s; parseState := parseState s;
      err := Some (SyntaxError (InvalidCharacter c context) (bytes s));
      bytes := bytes s |}, scanError).

(** [func (s *scanner) reset()]. *)
Definition reset (s : scanner) : scanner :=
  {| step := stateBeginValue; endTop := false; parseState := [];
     err := None; bytes := bytes s |}.

(** [func (s *scanner) pushParseState]. *)
Definition pushParseState (s : scanner) (c : byte) (newParseState : parse_state)
    (successState : scan_code) : scanner * scan_code :=
  let s := set_parseState s (newParseState :: parseState s) in
  if decide (Z.of_nat (length (parseState s)) ≤ maxNestingDepth)
  then (s, successState)
  else error_at s c "exceeded max depth".

(** [func (s *scanner) popParseState()]. *)
Definition popParseState (s : scanner) : scanner :=
  let ps := tail (parseState s) in
  match ps with
  | [] => {| step := stateEndTop; endTop := true; parseState := ps;
             err := err s; bytes := bytes s |}
  | _ => {| step := stateEndValue; endTop := endTop s; parseState := ps;
            err := err s; bytes := bytes s |}
  end.

Definition code (c : byte) : N := Byte.to_N c.

Definition is_char (c : byte) (lit : string) : bool :=
  match lit with
  | String a EmptyString => bool_decide (code c = Ascii.N_of_ascii a)
  | _ => false
  end.

Definition between (lo : string) (c : byte) (hi : string) : bool :=
  match lo, hi with
  | String a EmptyString, String b EmptyString =>
      (Ascii.N_of_ascii a <=? code c)%N && (code c <=? Ascii.N_of_ascii b)%N
  | _, _ => false
  end.

(** The double quote and the backslash, by code. *)
Definition is_quote (c : byte) : bool := bool_decide (code c = 34%N).
Definition is_backslash (c : byte) : bool := bool_decide (code c = 92%N).

(** [func isSpace(c byte) bool]: space, tab, carriage return, newline. *)
Definition isSpace (c : byte) : bool :=
  (code c <=? 32)%N &&
  (bool_decide (code c = 32%N) || bool_decide (code c = 9%N)
   || bool_decide (code c = 13%N) || bool_decide (code c = 10%N)).

Definition isDigit (c : byte) : bool := between "0" c "9".

Definition isHex (c : byte) : bool :=
  between "0" c "9" || between "a" c "f" || between "A" c "F".

(** [func stateEndTop]. *)
Definition do_stateEndTop (s : scanner) (c : byte) : scanner * scan_code :=
  if negb (isSpace c)
  then ((error_at s c "after top-level value").1, scanEnd)
  else (s, scanEnd).

(** [func stateEndValue]. *)
Definition do_stateEndValue (s : scanner) (c : byte) : scanner * scan_code :=
  match parseState s with
  | [] =>
      do_stateEndTop
        {| step := stateEndTop; endTop := true; parseState := [];
           err := err s; bytes := bytes s |} c
  | ps :: rest =>
      if isSpace c then (set_step s stateEndValue, scanSkipSpace)
      else match ps with
      | parseObjectKey =>
          if is_char c ":"
          then (set_step (set_parseState s (parseObjectValue :: rest))
                  stateBeginValue, scanObjectKey)
          else error_at s c "after object key"
      | parseObjectValue =>
          if is_char c ","
          then (set_step (set_parseState s (parseObjectKey :: rest))
                  stateBeginString, scanObjectValue)
          else if is_char c "}" then (popParseState s, scanEndObject)
          else error_at s c "after object key:value pair"
      | parseArrayValue =>
          if is_char c "," then (set_step s stateBeginValue, scanArrayValue)
          else if is_char c "]" then (popParseState s, scanEndArray)
          else error_at s c "after array element"
      end
  end.

(** [func stateBeginValue]. *)
Definition do_stateBeginValue (s : scanner) (c : byte) : scanner * scan_code :=
  if isSpace c then (s, scanSkipSpace)
  else if is_char c "{"
  then pushParseState (set_step s stateBeginStringOrEmpty) c
         parseObjectKey scanBeginObject
  else if is_char c "["
  then pushParseState (set_step s stateBeginValueOrEmpty) c
         parseArrayValue scanBeginArray
  else if is_quote c then (set_step s stateInString, scanBeginLiteral)
  else if is_char c "-" then (set_step s stateNeg, scanBeginLiteral)
  else if is_char c "0" then (set_step s state0, scanBeginLiteral)
  else if is_char c "t" then (set_step s stateT, scanBeginLiteral)
  else if is_char c "f" then (set_step s stateF, scanBeginLiteral)
  else if is_char c "n" then (set_step s stateN, scanBeginLiteral)
  else if between "1" c "9" then (set_step s state1, scanBeginLiteral)
  else error_at s c "looking for beginning of value".

(** [func stateBeginValueOrEmpty]. *)
Definition do_stateBeginValueOrEmpty (s : scanner) (c : byte)
  : scanner * scan_code :=
  if isSpace c then (s, scanSkipSpace)
  else if is_char c "]" then do_stateEndValue s c
  else do_stateBeginValue s c.

(** [func stateBeginString]. *)
Definition do_stateBeginString (s : scanner) (c : byte) : scanner * scan_code :=
  if isSpace c then (s, scanSkipSpace)
  else if is_quote c then (set_step s stateInString, scanBeginLiteral)
  else error_at s c "looking for beginning of object key string".

(** [func stateBeginStringOrEmpty]. *)
Definition do_stateBeginStringOrEmpty (s : scanner) (c : byte)
  : scanner * scan_code :=
  if isSpace c then (s, scanSkipSpace)
  else if is_char c "}"
  then do_stateEndValue
         (set_parseState s (parseObjectValue :: tail (parseState s))) c
  else do_stateBeginString s c.

(** [func stateInString]. *)
Definition do_stateInString (s : scanner) (c : byte) : scanner * scan_code :=
  if is_quote c then (set_step s stateEndValue, scanContinue)
  else if is_backslash c then (set_step s stateInStringEsc, scanContinue)
  else if (code c <? 32)%N then error_at s c "in string literal"
  else (s, scanContinue).

(** [func stateInStringEsc]. *)
Definition do_stateInStringEsc (s : scanner) (c : byte) : scanner * scan_code :=
  if is_char c "b" || is_char c "f" || is_char c "n" || is_char c "r" || is_char c "t"
     || is_backslash c || is_char c "/" || is_quote c
  then (set_step s stateInString, scanContinue)
  else if is_char c "u" then (set_step s stateInStringEscU, scanContinue)
  else error_at s c "in string escape code".

(** [stateInStringEscU], [...U1], [...U12], [...U123]: one hexadecimal
    digit each, [next] being the step that follows. *)
Definition do_hex (next : step_fn) (s : scanner) (c : byte)
  : scanner * scan_code :=
  if isHex c then (set_step s next, scanContinue)
  else error_at s c "in \u hexadecimal character escape".

(** [func state0]: after a leading zero. *)
Definition do_state0 (s : scanner) (c : byte) : scanner * scan_code :=
  if is_char c "." then (set_step s stateDot, scanContinue)
  else if is_char c "e" || is_char c "E" then (set_step s stateE, scanContinue)
  else do_stateEndValue s c.

(** [func state1]: after a non-zero digit. *)
Definition do_state1 (s : scanner) (c : byte) : scanner * scan_code :=
  if isDigit c then (set_step s state1, scanContinue)
  else do_state0 s c.

(** [func stateNeg]. *)
Definition do_stateNeg (s : scanner) (c : byte) : scanner * scan_code :=
  if is_char c "0" then (set_step s state0, scanContinue)
  else if between "1" c "9" then (set_step s state1, scanContinue)
  else error_at s c "in numeric literal".

(** [func stateDot]. *)
Definition do_stateDot (s : scanner) (c : byte) : scanner * scan_code :=
  if isDigit c then (set_step s stateDot0, scanContinue)
  else error_at s c "after decimal point in numeric literal".

(** [func stateDot0]. *)
Definition do_stateDot0 (s : scanner) (c : byte) : scanner * scan_code :=
  if isDigit c then (s, scanContinue)
  else if is_char c "e" || is_char c "E" then (set_step s stateE, scanContinue)
  else do_stateEndValue s c.

(** [func stateESign]. *)
Definition do_stateESign (s : scanner) (c : byte) : scanner * scan_code :=
  if isDigit c then (set_step s stateE0, scanContinue)
  else error_at s c "in exponent of numeric literal".

(** [func stateE]. *)
Definition do_stateE (s : scanner) (c : byte) : scanner * scan_code :=
  if is_char c "+" || is_char c "-" then (set_step s stateESign, scanContinue)
  else do_stateESign s c.

(** [func stateE0]. *)
Definition do_stateE0 (s : scanner) (c : byte) : scanner * scan_code :=
  if isDigit c then (s, scanContinue)
  else do_stateEndValue s c.

(** The steps inside the literals [true], [false] and [null]: the byte
    [want] is expected, [next] follows it. *)
Definition do_literal (want : string) (next : step_fn) (context : string)
    (s : scanner) (c : byte) : scanner * scan_code :=
  if is_char c want then (set_step s next, scanContinue)
  else error_at s c context.

(** [s.step(s, c)]: the call through the function value. *)
Definition run_step (s : scanner) (c : byte) : scanner * scan_code :=
  match step s with
  | stateBeginValueOrEmpty => do_stateBeginValueOrEmpty s c
  | stateBeginValue => do_stateBeginValue s c
  | stateBeginStringOrEmpty => do_stateBeginStringOrEmpty s c
  | stateBeginString => do_stateBeginString s c
  | stateEndValue => do_stateEndValue s c
  | stateEndTop => do_stateEndTop s c
  | stateInString => do_stateInString s c
  | stateInStringEsc => do_stateInStringEsc s c
  | stateInStringEscU => do_hex stateInStringEscU1 s c
  | stateInStringEscU1 => do_hex stateInStringEscU12 s c
  | stateInStringEscU12 => do_hex stateInStringEscU123 s c
  | stateInStringEscU123 => do_hex stateInString s c
  | stateNeg => do_stateNeg s c
  | state1 => do_state1 s c
  | state0 => do_state0 s c
  | stateDot => do_stateDot s c
  | stateDot0 => do_stateDot0 s c
  | stateE => do_stateE s c
  | stateESign => do_stateESign s c
  | stateE0 => do_stateE0 s c
  | stateT => do_literal "r" stateTr "in literal true (expecting 'r')" s c
  | stateTr => do_literal "u" stateTru "in literal true (expecting 'u')" s c
  | stateTru => do_literal "e" stateEndValue "in literal true (expecting 'e')" s c
  | stateF => do_literal "a" stateFa "in literal false (expecting 'a')" s c
  | stateFa => do_literal "l" stateFal "in literal false (expecting 'l')" s c
  | stateFal => do_literal "s" stateFals "in literal false (expecting 's')" s c
  | stateFals => do_literal "e" stateEndValue "in literal false (expecting 'e')" s c
  | stateN => do_literal "u" stateNu "in literal null (expecting 'u')" s c
  | stateNu => do_literal "l" stateNul "in literal null (expecting 'l')" s c
  | stateNul => do_literal "l" stateEndValue "in literal null (expecting 'l')" s c
  | stateError => (s, scanError)
  end.

(** [s.err != nil]. *)
Definition has_err (s : scanner) : bool :=
  match err s with Some _ => true | None => false end.

(** [func (s *scanner) eof() int]; the scanner is returned for its
    [err]. *)
Definition eof (s : scanner) : scanner * scan_code :=
  if has_err s then (s, scanError)
  else if endTop s then (s, scanEnd)
  else
    let s := (run_step s x20).1 in
    if endTop s then (s, scanEnd)
    else if has_err s then (s, scanError)
    else ({| step := step s; endTop := endTop s; parseState := parseState s;
             err := Some (SyntaxError UnexpectedEnd (bytes s));
             bytes := bytes s |}, scanError).

(** The loop of [checkValid]: [scan.bytes++] and one step per byte, until
    a step reports [scanError]. *)
Fixpoint scan_bytes (data : list byte) (scan : scanner) : scanner * bool :=
  match data with
  | [] => (scan, true)
  | c :: data =>
      let scan := {| step := step scan; endTop := endTop scan;
                     parseState := parseState scan; err := err scan;
                     bytes := bytes scan + 1 |} in
      match run_step scan c with
      | (scan, scanError) => (scan, false)
      | (scan, _) => scan_bytes data scan
      end
  end.

(** [func checkValid(data []byte, scan *scanner) error]. *)
Definition checkValid (data : list byte) (scan : scanner) : option error :=
  match scan_bytes data (reset scan) with
  | (scan, false) => err scan
  | (scan, true) =>
      match eof scan with
      | (scan, scanError) => err scan
      | _ => None
      end
  end.

(** The scanner of a fresh [decodeState]. *)
Definition new_scanner : scanner :=
  {| step := stateBeginValue; endTop := false; parseState := [];
     err := None; bytes := 0 |}.

(** [func Unmarshal(data []byte, v any) error]: the input is checked by
    [checkValid] first, and only a valid input is decoded into [v].  The
    decoding itself works by reflection on the type of [v]; it is the
    argument [decode], which gives the new contents of [v] and the error.
    The result is the contents of [v] after the call and the error. *)
Definition Unmarshal {T : Type} (decode : list byte → T → T * option error)
    (data : list byte) (v : T) : T * option error :=
  match checkValid data new_scanner with
  | Some e => (v, Some e)
  | None => decode data v
  end.

End json.

(** ** net/http: requests and responses *)

Module http.

Definition StatusOK : Z := 200.

(** [http.Header], a [map[string][]string]; [Set] replaces the values of
    a key. *)
Abbreviation Header := (gmap string (list string)).

Definition Header_Set (h : Header) (key value : string) : Header :=
  <[key := [value]]> h.

(** [url.URL], as far as the client looks at it: the part before the
    query (scheme, host, path) and the encoded query. *)
Record URL := {
  Location : string;
  RawQuery : string
}.

(** [http.Request]; [Request_Body] is the content of the body reader, nil
    for a request without body. *)
Record Request := {
  Method : string;
  Request_URL : URL;
  Request_Header : Header;
  Request_Body : option (list byte)
}.

(** [http.Response]; [Body] is the body reader, given by what reading it
    to the end yields: the bytes, or the error that interrupts the read. *)
Record Response := {
  StatusCode : Z;
  Body : result (list byte)
}.

End http.

Module ioutil.

(** [ioutil.ReadAll(resp.Body)]. *)
Definition ReadAll (r : result (list byte)) : result (list byte) := r.

End ioutil.

(** ** The records of the remote API *)

Record Experiment := {
  ExperimentId : string;
  Name : string;
  ArtifactLocation : string;
  LifecycleStage : string
}.

Record ResponseExperiment := {
  ResponseExperiment_Experiment : Experiment
}.

Record ResponseCreateExperiment := {
  ResponseCreateExperiment_ExperimentId : string
}.

Record RunInfo := {
  RunUUid : string;
  RunInfo_ExperimentId : string;
  UserId : string;
  Status : string;
  StartTime : Z;
  EndTime : Z;
  ArtifactUri : string;
  RunInfo_LifecycleStage : string;
  RunId : string
}.

Record Run := {
  Info : RunInfo;
  Data : string_map
}.

Record ResponseRun := {
  ResponseRun_Run : Run
}.

Record ResponseRunUpdate := {
  ResponseRunUpdate_Info : RunInfo
}.

(** The zero values that [var response T] declares. *)
Definition zero_Experiment : Experiment :=
  {| ExperimentId := ""; Name := ""; ArtifactLocation := ""; LifecycleStage := "" |}.

Definition zero_RunInfo : RunInfo :=
  {| RunUUid := ""; RunInfo_ExperimentId := ""; UserId := ""; Status := "";
     StartTime := 0; EndTime := 0; ArtifactUri := "";
     RunInfo_LifecycleStage := ""; RunId := "" |}.

Definition zero_ResponseExperiment : ResponseExperiment :=
  {| ResponseExperiment_Experiment := zero_Experiment |}.

Definition zero_ResponseCreateExperiment : ResponseCreateExperiment :=
  {| ResponseCreateExperiment_ExperimentId := "" |}.

Definition zero_ResponseRun : ResponseRun :=
  {| ResponseRun_Run := {| Info := zero_RunInfo; Data := [] |} |}.

Definition zero_ResponseRunUpdate : ResponseRunUpdate :=
  {| ResponseRunUpdate_Info := zero_RunInfo |}.

(** ** What the client takes from outside *)

(** The behaviours of the Go standard library and of the clock that the
    client relies on and that are not modelled here. *)
Record Runtime := {
  (** [url.Parse], called by [http.NewRequest]. *)
  url_Parse : string → result http.URL;
  (** [url.ParseQuery] as [URL.Query()] uses it: malformed pairs are
      dropped, there is no error. *)
  url_ParseQuery : string → url.Values;
  (** [url.Values.Encode]. *)
  url_Encode : url.Values → string;
  (** [json.Marshal]. *)
  json_Marshal : value → result (list byte);
  (** The reflection-based decoding of [json.Unmarshal] into each response
      type, run on an input that [checkValid] has accepted. *)
  decode_ResponseExperiment :
    list byte → ResponseExperiment → ResponseExperiment * option error;
  decode_ResponseCreateExperiment :
    list byte → ResponseCreateExperiment → ResponseCreateExperiment * option error;
  decode_ResponseRun :
    list byte → ResponseRun → ResponseRun * option error;
  decode_ResponseRunUpdate :
    list byte → ResponseRunUpdate → ResponseRunUpdate * option error;
  (** [time.Now().Unix()] at the moment of the call. *)
  time_Now_Unix : Z
}.

(** [type Client struct]: the HTTP client, given by its method [Do] (the
    remote service and the network behind it), and the base URL. *)
Record Client := {
  Do : http.Request → result http.Response;
  BaseUrl : string
}.

(** [x, err := e; if err != nil { return nil, err }] for a library call. *)
Notation "'let?' x ':=' e 'in' k" :=
  (match e with
   | Ok x => k
   | Fail err => (None, Some err)
   end)
  (at level 10, x name, e at level 100, k at level 200, only parsing).

(** The same for a function of the client, whose result is the Go pair. *)
Notation "'let!' x ':=' e 'in' k" :=
  (match e with
   | (x, None) => k
   | (_, Some err) => (None, Some err)
   end)
  (at level 10, x name, e at level 100, k at level 200, only parsing).

(** A [[]byte] passed on: nil is the empty slice. *)
Definition bytes_of (b : option (list byte)) : list byte := default [] b.

Section Dispatcher.

Variable rt : Runtime.

(** [http.NewRequest(method, url, body)]: the two methods the client uses
    are valid, so the only failure is that of [url.Parse]. *)
Definition NewRequest (method url : string) (body : option (list byte))
  : result http.Request :=
  match url_Parse rt url with
  | Ok u => Ok {| http.Method := method; http.Request_URL := u;
                  http.Request_Header := ∅; http.Request_Body := body |}
  | Fail e => Fail e
  end.

(** [req.URL.Query()]. *)
Definition URL_Query (u : http.URL) : url.Values :=
  url_ParseQuery rt (http.RawQuery u).

(** [req.URL.RawQuery = raw]. *)
Definition set_RawQuery (req : http.Request) (raw : string) : http.Request :=
  {| http.Method := http.Method req;
     http.Request_URL :=
       {| http.Location := http.Location (http.Request_URL req);
          http.RawQuery := raw |};
     http.Request_Header := http.Request_Header req;
     http.Request_Body := http.Request_Body req |}.

(** [req.Header.Set(key, value)]. *)
Definition set_Header (req : http.Request) (key value : string) : http.Request :=
  {| http.Method := http.Method req;
     http.Request_URL := http.Request_URL req;
     http.Request_Header := http.Header_Set (http.Request_Header req) key value;
     http.Request_Body := http.Request_Body req |}.

(** [func (p *Client) HandleGet(url string, params map[string]interface{})
    ([]byte, error)]. *)
Definition HandleGet (p : Client) (url : string) (params : string_map)
  : option (list byte) * option error :=
  let? req := NewRequest "GET" url None in
  let q := URL_Query (http.Request_URL req) in
  let q := AddQueries q params in
  let req := set_RawQuery req (url_Encode rt q) in
  let? resp := Do p req in
  let? body := ioutil.ReadAll (http.Body resp) in
  if decide (http.StatusCode resp = http.StatusOK)
  then (Some body, None)
  else (None, None).

(** [func (p *Client) HandlePost(url string, request interface{})
    ([]byte, error)]. *)
Definition HandlePost (p : Client) (url : string) (request : value)
  : option (list byte) * option error :=
  let? b := json_Marshal rt request in
  let? req := NewRequest "POST" url (Some b) in
  let req := set_Header req "Content-Type" "application/json" in
  let? resp := Do p req in
  let? body := ioutil.ReadAll (http.Body resp) in
  if decide (http.StatusCode resp = http.StatusOK)
  then (Some body, None)
  else (None, None).

(** [err = json.Unmarshal(body, &response); if err != nil { return nil,
    err }; return &response.F, nil], where [response] starts as the zero
    value [zero] and [field] is the projection [F]. *)
Definition unmarshal_field {T F : Type}
    (decode : list byte → T → T * option error) (zero : T) (field : T → F)
    (body : option (list byte)) : option F * option error :=
  match json.Unmarshal decode (bytes_of body) zero with
  | (_, Some err) => (None, Some err)
  | (response, None) => (Some (field response), None)
  end.

(** [func (p *Client) GetExperiment(experimentId string)], with results [*Experiment] and [error]. *)
Definition GetExperiment (p : Client) (experimentId : string)
  : option Experiment * option error :=
  let url := BaseUrl p +:+ "/api/2.0/mlflow/experiments/get" in
  let! body := HandleGet p url [("experiment_id", VString experimentId)] in
  unmarshal_field (decode_ResponseExperiment rt) zero_ResponseExperiment
    ResponseExperiment_Experiment body.

(** [func (p *Client) GetExperimentsByName(name string)], with results [*Experiment] and [error]. *)
Definition GetExperimentsByName (p : Client) (name : string)
  : option Experiment * option error :=
  let url := BaseUrl p +:+ "/api/2.0/mlflow/experiments/get-by-name" in
  let! body := HandleGet p url [("experiment_name", VString name)] in
  unmarshal_field (decode_ResponseExperiment rt) zero_ResponseExperiment
    ResponseExperiment_Experiment body.

(** [func (p *Client) CreateExperiment(name string)], with results [*string] and [error]. *)
Definition CreateExperiment (p : Client) (name : string)
  : option string * option error :=
  let url := BaseUrl p +:+ "/api/2.0/mlflow/experiments/create" in
  let! body := HandlePost p url (VMap [("name", VString name)]) in
  unmarshal_field (decode_ResponseCreateExperiment rt)
    zero_ResponseCreateExperiment ResponseCreateExperiment_ExperimentId body.

(** [func (p *Client) CreateRunWithStartTime(experimentId string,
    startTime int64, tags []map[string]string)], with results [*Run] and [error]. *)
Definition CreateRunWithStartTime (p : Client) (experimentId : string)
    (startTime : Z) (tags : list (list (string * string)))
  : option Run * option error :=
  let url := BaseUrl p +:+ "/api/2.0/mlflow/runs/create" in
  let! body :=
    HandlePost p url
      (VMap [("experiment_id", VString experimentId);
             ("start_time", VInt64 startTime);
             ("tags", VOther (OTags tags))]) in
  unmarshal_field (decode_ResponseRun rt) zero_ResponseRun ResponseRun_Run body.

(** [func (p *Client) CreateRun(experimentId string,
    tags []map[string]string)], with results [*Run] and [error]. *)
Definition CreateRun (p : Client) (experimentId : string)
    (tags : list (list (string * string))) : option Run * option error :=
  CreateRunWithStartTime p experimentId (time_Now_Unix rt) tags.

(** [func (p *Client) UpdateRunWithEndTime(runId string, status RunStatus,
    endTime int64)], with results [*RunInfo] and [error]. *)
Definition UpdateRunWithEndTime (p : Client) (runId : string)
    (status : RunStatus) (endTime : Z) : option RunInfo * option error :=
  let url := BaseUrl p +:+ "/api/2.0/mlflow/runs/update" in
  let! body :=
    HandlePost p url
      (VMap [("run_id", VString runId);
             ("status", VOther (ORunStatus status));
             ("end_time", VInt64 endTime)]) in
  unmarshal_field (decode_ResponseRunUpdate rt) zero_ResponseRunUpdate
    ResponseRunUpdate_Info body.

(** [func (p *Client) UpdateRun(runId string, status RunStatus)],
    with results [*RunInfo] and [error]. *)
Definition UpdateRun (p : Client) (runId : string) (status : RunStatus)
  : option RunInfo * option error :=
  UpdateRunWithEndTime p runId status (time_Now_Unix rt).

(** [func (p *Client) DeleteRun(runId string) error]. *)
Definition DeleteRun (p : Client) (runId : string) : option error :=
  let url := BaseUrl p +:+ "/api/2.0/mlflow/runs/delete" in
  let '(_, err) := HandlePost p url (VMap [("run_id", VString runId)]) in
  err.

(** [func (p *Client) GetRun(runId string)], with results [*Run] and [error]. *)
Definition GetRun (p : Client) (runId : string) : option Run * option error :=
  let url := BaseUrl p +:+ "/api/2.0/mlflow/runs/get" in
  let! body := HandleGet p url [("run_id", VString runId)] in
  unmarshal_field (decode_ResponseRun rt) zero_ResponseRun ResponseRun_Run body.

End Dispatcher.

(** [func New(url string) *Client]; [http.DefaultClient] is the argument
    [default_Do]. *)
Definition New (default_Do : http.Request → result http.Response) (url : string)
  : Client :=
  {| Do := default_Do; BaseUrl := url |}.

(** ** The flattening, as the spec words it *)

(** The query entries that the spec's flattening rules give for a value
    under a key, in the order in which they are emitted: one entry for a
    scalar, one per element for a list of strings, the entries of each
    element for a list of values, the entries of each inner value under the
    dotted key for a nested mapping, none otherwise. *)
Fixpoint query_entries (key : string) (v : value) : list (string * string) :=
  match v with
  | VString s => [(key, s)]
  | VInt n => [(key, strconv.Itoa n)]
  | VInt64 n => [(key, strconv.FormatInt n 10)]
  | VBool b => [(key, strconv.FormatBool b)]
  | VStrings xs => (fun x => (key, x)) <$> xs
  | VList vs => mjoin ((fun v => query_entries key v) <$> vs)
  | VMap m =>
      mjoin ((fun kv => query_entries (key +:+ "." +:+ kv.1) kv.2) <$> m)
  | VOther _ => []
  end.

(** Adding a list of entries to a multi-map, in order. *)
Definition add_entries (q : url.Values) (es : list (string * string)) : url.Values :=
  foldl (fun q e => url.Add q e.1 e.2) q es.

(** The values that a list of entries holds under one key, in order. *)
Definition values_under (key : string) (es : list (string * string)) : list string :=
  (filter (fun e => e.1 = key) es).*2.

(** [dotted k key]: [key] is [k], or [k] extended by one or more suffixes,
    each joined by a dot. *)
Inductive dotted (k : string) : string → Prop :=
| dotted_same : dotted k k
| dotted_join key k2 : dotted k key → dotted k (key +:+ "." +:+ k2).

(** ** The HTTP exchange of a dispatch, as the spec words it *)

(** The request that [HandleGet] hands to [Do]: the parsed URL with the
    flattened parameters added to its query. *)
Definition get_request (rt : Runtime) (url : string) (m : string_map)
  : result http.Request :=
  match NewRequest rt "GET" url None with
  | Ok req =>
      Ok (set_RawQuery req
            (url_Encode rt
               (AddQueries (URL_Query rt (http.Request_URL req)) m)))
  | Fail e => Fail e
  end.

(** The request that [HandlePost] hands to [Do] for the serialised value
    [b]. *)
Definition post_request (rt : Runtime) (url : string) (b : list byte)
  : result http.Request :=
  match NewRequest rt "POST" url (Some b) with
  | Ok req => Ok (set_Header req "Content-Type" "application/json")
  | Fail e => Fail e
  end.

(** The exchange for the request [r] is answered: the request was built,
    [Do] returned a response with status [st], and its body was read to the
    end as [body]. *)
Definition answered (p : Client) (r : result http.Request) (st : Z)
    (body : list byte) : Prop :=
  ∃ req resp,
    r = Ok req ∧ Do p req = Ok resp
    ∧ http.StatusCode resp = st ∧ http.Body resp = Ok body.

(** The exchange for the request [r] fails with the error [e], which the
    spec calls a transport-level failure: the request cannot be built, [Do]
    fails, or reading the body fails. *)
Inductive transport_failure (p : Client) (r : result http.Request) (e : error)
  : Prop :=
| build_fails :
    r = Fail e → transport_failure p r e
| send_fails req :
    r = Ok req → Do p req = Fail e → transport_failure p r e
| read_fails req resp :
    r = Ok req → Do p req = Ok resp → http.Body resp = Fail e →
    transport_failure p r e.

(** The result of an endpoint is either a value with a nil error or a nil
    value with an error. *)
Definition value_xor_error {T : Type} (r : option T * option error) : Prop :=
  (∃ x, r = (Some x, None)) ∨ (∃ e, r = (None, Some e)).

(** [reordered v v']: [v'] is the value [v] with the entries of its maps,
    at any depth, ranged over in another order. *)
Inductive reordered : value → value → Prop :=
| reordered_same v :
    reordered v v
| reordered_list vs vs' :
    Forall2 reordered vs vs' → reordered (VList vs) (VList vs')
| reordered_map m m' m'' :
    Forall2 (fun kv kv' => kv.1 = kv'.1 ∧ reordered kv.2 kv'.2) m m' →
    m' ≡ₚ m'' →
    reordered (VMap m) (VMap m'').

(** Two multi-maps with the same keys and, under every key, the same values
    up to their order. *)
Definition same_values (q q' : url.Values) : Prop :=
  dom q = dom q' ∧ ∀ key, url.at_key q key ≡ₚ url.at_key q' key.

(** ** Example clients and runtimes *)

Module Examples.

(** The bytes of an ASCII text. *)
Definition text (s : string) : list byte := String.list_byte_of_string s.

(** A runtime in which URLs carry no query of their own, every value
    serialises, and every valid document decodes leaving the response as
    it is. *)
Definition runtime : Runtime :=
  {| url_Parse u := Ok {| http.Location := u; http.RawQuery := "" |};
     url_ParseQuery _ := ∅;
     url_Encode q :=
       String.concat "&"
         ((map_to_list q) ≫= fun kv => (fun v => kv.1 +:+ "=" +:+ v) <$> kv.2);
     json_Marshal _ := Ok (text "{}");
     decode_ResponseExperiment _ r := (r, None);
     decode_ResponseCreateExperiment _ r := (r, None);
     decode_ResponseRun _ r := (r, None);
     decode_ResponseRunUpdate _ r := (r, None);
     time_Now_Unix := 1700000000 |}.

(** A runtime whose [url.Parse] rejects every URL. *)
Definition runtime_bad_url : Runtime :=
  {| url_Parse _ := Fail (LibraryError "url" "invalid URL");
     url_ParseQuery := url_ParseQuery runtime;
     url_Encode := url_Encode runtime;
     json_Marshal := json_Marshal runtime;
     decode_ResponseExperiment := decode_ResponseExperiment runtime;
     decode_ResponseCreateExperiment := decode_ResponseCreateExperiment runtime;
     decode_ResponseRun := decode_ResponseRun runtime;
     decode_ResponseRunUpdate := decode_ResponseRunUpdate runtime;
     time_Now_Unix := time_Now_Unix runtime |}.

(** A runtime whose [json.Marshal] rejects the values of foreign types
    (a channel, a function). *)
Definition runtime_strict : Runtime :=
  {| url_Parse := url_Parse runtime;
     url_ParseQuery := url_ParseQuery runtime;
     url_Encode := url_Encode runtime;
     json_Marshal v :=
       match v with
       | VOther (OForeign go_type _) =>
           Fail (LibraryError "json" ("unsupported type: " +:+ go_type))
       | _ => Ok (text "{}")
       end;
     decode_ResponseExperiment := decode_ResponseExperiment runtime;
     decode_ResponseCreateExperiment := decode_ResponseCreateExperiment runtime;
     decode_ResponseRun := decode_ResponseRun runtime;
     decode_ResponseRunUpdate := decode_ResponseRunUpdate runtime;
     time_Now_Unix := time_Now_Unix runtime |}.

Definition connection_refused : error :=
  LibraryError "net" "connection refused".

Definition unexpected_EOF : error :=
  LibraryError "io" "unexpected EOF".

(** A service that cannot be reached. *)
Definition client_down : Client :=
  New (fun _ => Fail connection_refused) "http://localhost:5000".

(** A service that answers every request with status 404 and an empty
    body. *)
Definition client_404 : Client :=
  New (fun _ => Ok {| http.StatusCode := 404; http.Body := Ok [] |})
    "http://localhost:5000".

(** A service that answers with status 500 and an HTML page. *)
Definition client_500 : Client :=
  New (fun _ => Ok {| http.StatusCode := 500;
                      http.Body := Ok (text "<html>error</html>") |})
    "http://localhost:5000".

(** A service that answers every request with status 200 and an empty
    JSON object. *)
Definition client_200 : Client :=
  New (fun _ => Ok {| http.StatusCode := 200; http.Body := Ok (text "{}") |})
    "http://localhost:5000".

(** A service whose answer breaks off while the body is read. *)
Definition client_truncated : Client :=
  New (fun _ => Ok {| http.StatusCode := 200; http.Body := Fail unexpected_EOF |})
    "http://localhost:5000".

(** A service that answers with status 200 and an empty body. *)
Definition client_200_empty : Client :=
  New (fun _ => Ok {| http.StatusCode := 200; http.Body := Ok [] |})
    "http://localhost:5000".

(** A service behind a proxy that answers with status 200 and an HTML
    page. *)
Definition client_200_html : Client :=
  New (fun _ => Ok {| http.StatusCode := 200;
                      http.Body := Ok (text "<html>login</html>") |})
    "http://localhost:5000".

Definition experiment_1 : Experiment :=
  {| ExperimentId := "1"; Name := "test4";
     ArtifactLocation := "./mlruns/1"; LifecycleStage := "active" |}.

(** A runtime whose decoder finds the experiment [experiment_1] in every
    valid document. *)
Definition runtime_experiment : Runtime :=
  {| url_Parse := url_Parse runtime;
     url_ParseQuery := url_ParseQuery runtime;
     url_Encode := url_Encode runtime;
     json_Marshal := json_Marshal runtime;
     decode_ResponseExperiment _ _ :=
       ({| ResponseExperiment_Experiment := experiment_1 |}, None);
     decode_ResponseCreateExperiment _ _ :=
       ({| ResponseCreateExperiment_ExperimentId := "1" |}, None);
     decode_ResponseRun := decode_ResponseRun runtime;
     decode_ResponseRunUpdate := decode_ResponseRunUpdate runtime;
     time_Now_Unix := time_Now_Unix runtime |}.

Definition type_mismatch : error :=
  LibraryError "json" "cannot unmarshal number into Go struct field".

(** A runtime whose decoder fills in the experiment and then reports a
    field of the wrong type. *)
Definition runtime_type_mismatch : Runtime :=
  {| url_Parse := url_Parse runtime;
     url_ParseQuery := url_ParseQuery runtime;
     url_Encode := url_Encode runtime;
     json_Marshal := json_Marshal runtime;
     decode_ResponseExperiment _ _ :=
       ({| ResponseExperiment_Experiment := experiment_1 |}, Some type_mismatch);
     decode_ResponseCreateExperiment _ r := (r, Some type_mismatch);
     decode_ResponseRun _ r := (r, Some type_mismatch);
     decode_ResponseRunUpdate _ r := (r, Some type_mismatch);
     time_Now_Unix := time_Now_Unix runtime |}.

End Examples.

(** ** Induction on values, through lists and mappings *)

Section value_induction.

Variable P : value → Prop.
Hypothesis HString : ∀ s, P (VString s).
Hypothesis HInt : ∀ n, P (VInt n).
Hypothesis HInt64 : ∀ n, P (VInt64 n).
Hypothesis HBool : ∀ b, P (VBool b).
Hypothesis HStrings : ∀ xs, P (VStrings xs).
Hypothesis HList : ∀ vs, Forall P vs → P (VList vs).
Hypothesis HMap : ∀ m, Forall (fun kv => P kv.2) m → P (VMap m).
Hypothesis HOther : ∀ o, P (VOther o).

Fixpoint value_nested_ind (v : value) : P v :=
  match v with
  | VString s => HString s
  | VInt n => HInt n
  | VInt64 n => HInt64 n
  | VBool b => HBool b
  | VStrings xs => HStrings xs
  | VList vs =>
      HList vs
        ((fix go (vs : list value) : Forall P vs :=
            match vs with
            | [] => Forall_nil_2 P
            | v :: vs => Forall_cons_2 P v vs (value_nested_ind v) (go vs)
            end) vs)
  | VMap m =>
      HMap m
        ((fix go (m : string_map) : Forall (fun kv => P kv.2) m :=
            match m with
            | [] => Forall_nil_2 _
            | kv :: m => Forall_cons_2 _ kv m (value_nested_ind kv.2) (go m)
            end) m)
  | VOther o => HOther o
  end.

End value_induction.

(** * Properties *)


(** ** The multi-map *)

Lemma at_key_Add (q : url.Values) (k v key : string) :
  url.at_key (url.Add q k v) key =
    if decide (k = key) then url.at_key q k ++ [v] else url.at_key q key.
Proof. unfold url.Add, url.at_key. apply lookup_total_insert. Qed.

Lemma lookup_Add (q : url.Values) (k v key : string) :
  url.Add q k v !! key =
    if decide (k = key) then Some (url.at_key q k ++ [v]) else q !! key.
Proof. unfold url.Add. apply lookup_insert. Qed.

Lemma num_entries_fresh (q : url.Values) (k : string) (vs : list string) :
  q !! k = None →
  url.num_entries (<[k := vs]> q) = (length vs + url.num_entries q)%nat.
Proof.
  intros Hk. unfold url.num_entries.
  rewrite map_fold_insert_L; [done | | done].
  intros. lia.
Qed.

Lemma num_entries_insert (q : url.Values) (k : string) (vs : list string) :
  (url.num_entries (<[k := vs]> q) + length (url.at_key q k) =
     length vs + url.num_entries q)%nat.
Proof.
  unfold url.at_key. rewrite lookup_total_alt.
  destruct (q !! k) as [old|] eqn:Hk; simpl.
  - rewrite <- (insert_delete_eq q k vs).
    rewrite num_entries_fresh by apply lookup_delete_eq.
    rewrite <- (insert_delete_id q k old Hk) at 2.
    rewrite num_entries_fresh by apply lookup_delete_eq. lia.
  - rewrite num_entries_fresh by done. lia.
Qed.

Lemma num_entries_Add (q : url.Values) (k v : string) :
  url.num_entries (url.Add q k v) = S (url.num_entries q).
Proof.
  unfold url.Add.
  pose proof (num_entries_insert q k (url.at_key q k ++ [v])) as H.
  rewrite length_app in H. simpl in H. lia.
Qed.

(** ** [AddQuery] adds the entries of the flattening rules *)

Lemma add_entries_app (q : url.Values) (es1 es2 : list (string * string)) :
  add_entries q (es1 ++ es2) = add_entries (add_entries q es1) es2.
Proof. apply foldl_app. Qed.

Lemma values_under_app (key : string) (es1 es2 : list (string * string)) :
  values_under key (es1 ++ es2) = values_under key es1 ++ values_under key es2.
Proof. unfold values_under. by rewrite filter_app, fmap_app. Qed.

Lemma values_under_cons (key : string) (e : string * string)
    (es : list (string * string)) :
  values_under key (e :: es) =
    if decide (e.1 = key) then e.2 :: values_under key es else values_under key es.
Proof.
  unfold values_under. rewrite filter_cons. by destruct (decide (e.1 = key)).
Qed.

Lemma at_key_add_entries (es : list (string * string)) (q : url.Values)
    (key : string) :
  url.at_key (add_entries q es) key = url.at_key q key ++ values_under key es.
Proof.
  revert q. induction es as [|e es IH]; intros q.
  - simpl. by rewrite app_nil_r.
  - change (add_entries q (e :: es)) with (add_entries (url.Add q e.1 e.2) es).
    rewrite IH, at_key_Add, values_under_cons.
    destruct (decide (e.1 = key)) as [->|]; [by rewrite <- app_assoc | done].
Qed.

Lemma lookup_add_entries (es : list (string * string)) (q : url.Values)
    (key : string) :
  add_entries q es !! key =
    if decide (values_under key es = [])
    then q !! key
    else Some (url.at_key q key ++ values_under key es).
Proof.
  revert q. induction es as [|e es IH]; intros q; [done|].
  change (add_entries q (e :: es)) with (add_entries (url.Add q e.1 e.2) es).
  rewrite IH, lookup_Add, at_key_Add, values_under_cons.
  destruct (decide (e.1 = key)) as [Heq|Hne]; [|done].
  destruct (decide (e.2 :: values_under key es = [])) as [?|_]; [done|].
  destruct (decide (values_under key es = [])) as [->|_];
    by rewrite Heq, <- ?app_assoc.
Qed.

Lemma num_entries_add_entries (es : list (string * string)) (q : url.Values) :
  url.num_entries (add_entries q es) = (url.num_entries q + length es)%nat.
Proof.
  revert q. induction es as [|e es IH]; intros q; simpl; [lia|].
  change (add_entries q (e :: es)) with (add_entries (url.Add q e.1 e.2) es).
  rewrite IH, num_entries_Add. lia.
Qed.

Lemma AddQuery_entries (v : value) :
  ∀ (q : url.Values) (key : string),
    AddQuery q key v = add_entries q (query_entries key v).
Proof.
  induction v as [s|n|n|b|xs|vs IH|m IH|o] using value_nested_ind;
    intros q key; try reflexivity.
  - simpl. revert q. induction xs as [|x xs IHxs]; intros q; [done|].
    simpl. apply IHxs.
  - simpl. revert q. induction IH as [|v vs Hv _ IHvs]; intros q; [done|].
    simpl. rewrite IHvs, Hv. by rewrite add_entries_app.
  - simpl. revert q. induction IH as [|kv m Hkv _ IHm]; intros q; [done|].
    simpl. rewrite IHm, Hkv. by rewrite add_entries_app.
Qed.

Lemma AddQueries_entries (m : string_map) (q : url.Values) :
  AddQueries q m =
    add_entries q (mjoin ((fun kv => query_entries kv.1 kv.2) <$> m)).
Proof.
  revert q. induction m as [|kv m IH]; intros q; [done|].
  simpl. rewrite add_entries_app, <- AddQuery_entries. apply IH.
Qed.

Lemma query_entries_dotted (v : value) :
  ∀ (key : string) (e : string * string),
    e ∈ query_entries key v → dotted key e.1.
Proof.
  induction v as [s|n|n|b|xs|vs IH|m IH|o] using value_nested_ind;
    intros key e; simpl;
    try (intros ->%list_elem_of_singleton; constructor).
  - intros (x & -> & _)%list_elem_of_fmap. constructor.
  - intros (es & He & (v & -> & Hv)%list_elem_of_fmap)%list_elem_of_join.
    rewrite Forall_forall in IH. eauto.
  - intros (es & He & (kv & -> & Hkv)%list_elem_of_fmap)%list_elem_of_join.
    rewrite Forall_forall in IH.
    specialize (IH kv Hkv _ _ He).
    clear -IH. remember (key +:+ "." +:+ kv.1) as k' eqn:Hk'.
    induction IH as [|key' k2 _ IH']; subst.
    + apply dotted_join, dotted_same.
    + by apply dotted_join, IH'.
  - intros []%elem_of_nil.
Qed.

Lemma AddQuery_scalar_insert (q : url.Values) (k : string) (v : value) (s : string) :
  scalar_string v = Some s →
  AddQuery q k v = <[k := url.at_key q k ++ [s]]> q.
Proof. destruct v; simpl; intros [= <-]; reflexivity. Qed.

Lemma AddQueries_cons (q : url.Values) (kv : string * value) (m : string_map) :
  AddQueries q (kv :: m) = AddQueries (AddQuery q kv.1 kv.2) m.
Proof. reflexivity. Qed.

Lemma AddQueries_scalars (m : string_map) :
  NoDup m.*1 →
  Forall (fun kv => is_Some (scalar_string kv.2)) m →
  ∀ q : url.Values,
    (∀ k v s, (k, v) ∈ m → scalar_string v = Some s →
       AddQueries q m !! k = Some (url.at_key q k ++ [s]))
    ∧ (∀ k, k ∉ m.*1 → AddQueries q m !! k = q !! k)
    ∧ url.num_entries (AddQueries q m) = (url.num_entries q + length m)%nat.
Proof.
  induction m as [|[k0 v0] m IH]; intros Hdup Hsc q.
  - repeat split; [intros k v s []%elem_of_nil | simpl; lia].
  - rewrite fmap_cons in Hdup. apply NoDup_cons in Hdup as [Hk0 Hdup].
    apply Forall_cons in Hsc as [[s0 Hs0] Hsc]. simpl in Hk0, Hs0.
    rewrite AddQueries_cons. simpl.
    destruct (IH Hdup Hsc (AddQuery q k0 v0)) as (Hin & Hout & Hnum).
    rewrite (AddQuery_scalar_insert q k0 v0 s0 Hs0) in Hin, Hout, Hnum |- *.
    fold (url.Add q k0 s0) in Hin, Hout, Hnum |- *.
    repeat split.
    + intros k v s [[= -> ->]|Hkv]%elem_of_cons Hs.
      * rewrite Hout, lookup_Add, decide_True by done. congruence.
      * assert (k0 ≠ k) as Hne.
        { intros ->. apply Hk0, list_elem_of_fmap. by exists (k, v). }
        rewrite (Hin k v s Hkv Hs), at_key_Add. by rewrite decide_False.
    + intros k [Hne Hk]%not_elem_of_cons.
      rewrite Hout, lookup_Add by done. by rewrite decide_False.
    + rewrite Hnum, num_entries_Add. simpl. lia.
Qed.

(** C2.  A string, [int], [int64] or [bool] value adds exactly one entry,
    under the given key, holding the stringified value: the slice under the
    key grows by that one string and the multi-map holds one entry more.
    Hence flattening a mapping (distinct keys) whose values are all such
    scalars adds, for each key of the mapping, exactly one entry under that
    key, changes no other key, and adds as many entries as the mapping has
    keys. *)
Theorem scalar_one_entry_per_key :
  (∀ (q : url.Values) (k : string) (v : value) (s : string),
     scalar_string v = Some s →
     AddQuery q k v = <[k := url.at_key q k ++ [s]]> q
     ∧ url.num_entries (AddQuery q k v) = S (url.num_entries q))
  ∧ (∀ (q : url.Values) (m : string_map),
       NoDup m.*1 →
       Forall (fun kv => is_Some (scalar_string kv.2)) m →
       (∀ k v s, (k, v) ∈ m → scalar_string v = Some s →
          AddQueries q m !! k = Some (url.at_key q k ++ [s]))
       ∧ (∀ k, k ∉ m.*1 → AddQueries q m !! k = q !! k)
       ∧ url.num_entries (AddQueries q m) = (url.num_entries q + length m)%nat).
Proof.
  split.
  - intros q k v s Hs. rewrite (AddQuery_scalar_insert q k v s Hs).
    split; [done|]. apply (num_entries_Add q k s).
  - intros q m Hdup Hsc. by apply AddQueries_scalars.
Qed.

(** An [int64] under a fresh key, and a mapping of three scalars. *)
Lemma scalar_one_entry_per_key_witness :
  (AddQuery ∅ "experiment_id" (VInt64 7)
     = <["experiment_id" := url.at_key ∅ "experiment_id" ++ ["7"]]> ∅
   ∧ url.num_entries (AddQuery ∅ "experiment_id" (VInt64 7))
     = S (url.num_entries ∅))
  ∧ url.num_entries
      (AddQueries ∅ [("run_id", VString "r1"); ("deep", VBool true); ("n", VInt (-3))])
    = (url.num_entries ∅ + 3)%nat.
Proof.
  split.
  - exact (proj1 scalar_one_entry_per_key ∅ "experiment_id" (VInt64 7) "7" eq_refl).
  - refine (proj2 (proj2 (proj2 scalar_one_entry_per_key ∅
              [("run_id", VString "r1"); ("deep", VBool true); ("n", VInt (-3))]
              _ _))).
    + apply (bool_decide_unpack _). vm_compute. reflexivity.
    + repeat constructor; eexists; reflexivity.
Defined.

(** C3.  A nested mapping under key [k] is flattened like a mapping of its
    own whose keys are the inner keys prefixed by [k] and a dot, each inner
    value being flattened recursively under its joined key; and flattening
    {a: {b: 1}} into an empty query gives exactly the entry "a.b" with value
    "1". *)
Theorem nested_mapping_dotted_keys :
  (∀ (q : url.Values) (k : string) (m : string_map),
     AddQuery q k (VMap m)
       = foldl (fun q kv => AddQuery q (k +:+ "." +:+ kv.1) kv.2) q m
     ∧ AddQuery q k (VMap m)
       = AddQueries q ((fun kv => (k +:+ "." +:+ kv.1, kv.2)) <$> m))
  ∧ AddQueries ∅ [("a", VMap [("b", VInt 1)])] = {["a.b" := ["1"]]}.
Proof.
  split; [|by vm_compute].
  intros q k m. split; [reflexivity|].
  unfold AddQueries. simpl. revert q.
  induction m as [|kv m IH]; intros q; [done|]. simpl. apply IH.
Qed.

(** C4.  A list of strings under key [k] adds one entry per element, all
    under [k] and in list order: the slice under [k] is extended by the
    list, no other key changes (and no key is created for an empty list),
    and the number of entries grows by the length of the list.  Flattening
    a mapping with the list ["x","y"] under key [k] gives two entries, both
    under [k]. *)
Theorem string_list_repeated_key :
  (∀ (q : url.Values) (k : string) (xs : list string),
     (∀ key, AddQuery q k (VStrings xs) !! key =
        if decide (key = k ∧ xs ≠ [])
        then Some (url.at_key q k ++ xs)
        else q !! key)
     ∧ url.at_key (AddQuery q k (VStrings xs)) k = url.at_key q k ++ xs
     ∧ url.num_entries (AddQuery q k (VStrings xs))
       = (url.num_entries q + length xs)%nat)
  ∧ AddQueries ∅ [("k", VStrings ["x"; "y"])] = {["k" := ["x"; "y"]]}
  ∧ url.num_entries (AddQueries ∅ [("k", VStrings ["x"; "y"])]) = 2%nat.
Proof.
  assert (∀ (k key : string) (xs : list string),
    values_under key ((fun x => (k, x)) <$> xs) = if decide (k = key) then xs else [])
    as Hunder.
  { intros k key xs. induction xs as [|x xs IH]; [by case_decide|].
    rewrite fmap_cons, values_under_cons, IH. simpl. by case_decide. }
  split; [|split].
  - intros q k xs. rewrite AddQuery_entries. simpl. repeat split.
    + intros key. rewrite lookup_add_entries, Hunder.
      destruct (decide (k = key)) as [->|Hne].
      * destruct (decide (xs = [])) as [->|Hxs].
        -- by rewrite decide_False by (by intros [_ ?]).
        -- by rewrite decide_True by done.
      * rewrite decide_True by done.
        by rewrite decide_False by (intros [? _]; congruence).
    + by rewrite at_key_add_entries, Hunder, decide_True.
    + by rewrite num_entries_add_entries, length_fmap.
  - by vm_compute.
  - rewrite AddQueries_entries, num_entries_add_entries. reflexivity.
Qed.

Lemma values_under_join (key : string) (ess : list (list (string * string))) :
  values_under key (mjoin ess) = mjoin (values_under key <$> ess).
Proof.
  induction ess as [|es ess IH]; [done|].
  csimpl. by rewrite values_under_app, IH.
Qed.

Lemma values_under_same_key (k key : string) (xs : list string) :
  values_under key ((fun x => (k, x)) <$> xs) = if decide (k = key) then xs else [].
Proof.
  induction xs as [|x xs IH]; [by case_decide|].
  rewrite fmap_cons, values_under_cons, IH. simpl. by case_decide.
Qed.

Lemma query_entries_scalar (k : string) (v : value) (s : string) :
  scalar_string v = Some s → query_entries k v = [(k, s)].
Proof. destruct v; simpl; intros [= <-]; reflexivity. Qed.

Lemma query_entries_scalars (k : string) (vs : list value) (ss : list string) :
  Forall2 (fun v s => scalar_string v = Some s) vs ss →
  mjoin ((fun v => query_entries k v) <$> vs) = (fun s => (k, s)) <$> ss.
Proof.
  induction 1 as [|v s vs ss Hs _ IH]; [done|].
  csimpl. by rewrite (query_entries_scalar k v s Hs), IH.
Qed.

(** C5.  A list of arbitrary values under key [k] is flattened element by
    element, each under the same key [k] and in list order: it is the
    sequence of calls [AddQuery(q, k, v)] for the elements [v], and what
    reaches the query is, one element after the other, the entries that the
    flattening rules give for that element under [k].  So under every key
    the slice is extended by the values of the first element under that
    key, then those of the second, and so on; for elements that are strings,
    integers and booleans the slice under [k] is extended by their strings
    in list order and no other key changes. *)
Theorem value_list_same_key (q : url.Values) (k : string) (vs : list value) :
  AddQuery q k (VList vs) = foldl (fun q v => AddQuery q k v) q vs
  ∧ AddQuery q k (VList vs)
    = add_entries q (mjoin ((fun v => query_entries k v) <$> vs))
  ∧ (∀ key,
       url.at_key (AddQuery q k (VList vs)) key
         = url.at_key q key
             ++ mjoin ((fun v => values_under key (query_entries k v)) <$> vs))
  ∧ (∀ ss,
       Forall2 (fun v s => scalar_string v = Some s) vs ss →
       ∀ key,
         AddQuery q k (VList vs) !! key
           = if decide (key = k ∧ ss ≠ [])
             then Some (url.at_key q k ++ ss)
             else q !! key)
  ∧ url.num_entries (AddQuery q k (VList vs))
    = (url.num_entries q
       + length (mjoin ((fun v => query_entries k v) <$> vs)))%nat
  ∧ AddQuery ∅ "k" (VList [VInt 1; VString "x"; VList [VBool true]; VOther ONil])
    = {["k" := ["1"; "x"; "true"]]}
  ∧ AddQuery q k (VList vs) = AddQueries q ((fun v => (k, v)) <$> vs)
  ∧ (∀ v vs', vs = v :: vs' →
       AddQuery q k (VList vs) = AddQuery (AddQuery q k v) k (VList vs')).
Proof.
  assert (AddQuery q k (VList vs) = AddQueries q ((fun v => (k, v)) <$> vs)
          ∧ (∀ v vs', vs = v :: vs' →
               AddQuery q k (VList vs)
                 = AddQuery (AddQuery q k v) k (VList vs'))) as Hcalls.
  { split; [|by intros v vs' ->].
    unfold AddQueries. simpl. generalize q.
    induction vs as [|v vs IH]; intros q0; [done|]. simpl. apply IH. }
  split; [reflexivity|].
  assert (AddQuery q k (VList vs)
          = add_entries q (mjoin ((fun v => query_entries k v) <$> vs))) as Hes
    by apply (AddQuery_entries (VList vs)).
  split; [exact Hes|]. rewrite Hes.
  split; [|split; [|split]].
  - intros key.
    by rewrite at_key_add_entries, values_under_join, <- list_fmap_compose.
  - intros ss Hss key.
    rewrite lookup_add_entries, (query_entries_scalars k vs ss Hss),
      values_under_same_key.
    destruct (decide (k = key)) as [->|Hne].
    + destruct (decide (ss = [])) as [->|Hnil].
      * by rewrite decide_False by (by intros [_ ?]).
      * by rewrite decide_True by done.
    + rewrite decide_True by done.
      by rewrite decide_False by (intros [? _]; congruence).
  - apply num_entries_add_entries.
  - split; [by vm_compute|]. by rewrite <- Hes.
Qed.

(** A list of three scalars under a key that already holds a value. *)
Lemma value_list_same_key_witness :
  Forall2 (fun v s => scalar_string v = Some s)
    [VString "b"; VInt 2; VBool false] ["b"; "2"; "false"]
  ∧ AddQuery {["tag" := ["a"]]} "tag" (VList [VString "b"; VInt 2; VBool false])
      !! "tag"
    = Some ["a"; "b"; "2"; "false"]
  ∧ AddQuery {["tag" := ["a"]]} "tag" (VList [VString "b"; VInt 2; VBool false])
      !! "page"
    = None.
Proof.
  assert (Forall2 (fun v s => scalar_string v = Some s)
            [VString "b"; VInt 2; VBool false] ["b"; "2"; "false"]) as Hss
    by repeat constructor.
  split; [exact Hss|].
  split;
    exact (proj1 (proj2 (proj2 (proj2
             (value_list_same_key {["tag" := ["a"]]} "tag"
                [VString "b"; VInt 2; VBool false])))) ["b"; "2"; "false"] Hss _).
Defined.

(** C6.  A value of a dynamic type that the type switch has no case for is
    dropped: the multi-map is left as it was, and there is no error
    (the function has no other outcome than the map). *)
Theorem unsupported_value_dropped (q : url.Values) (k : string) (o : other) :
  AddQuery q k (VOther o) = q
  ∧ query_entries k (VOther o) = []
  ∧ url.num_entries (AddQuery q k (VOther o)) = url.num_entries q.
Proof. done. Qed.

Lemma string_app_nil_r (s : string) : s +:+ "" = s.
Proof.
  induction s as [|a s IH]; [done|].
  change (String a (s +:+ "") = String a s). by rewrite IH.
Qed.

Lemma string_app_assoc (s1 s2 s3 : string) :
  (s1 +:+ s2) +:+ s3 = s1 +:+ (s2 +:+ s3).
Proof.
  induction s1 as [|a s1 IH]; [done|].
  change (String a ((s1 +:+ s2) +:+ s3) = String a (s1 +:+ (s2 +:+ s3))).
  by rewrite IH.
Qed.

Lemma dotted_prefix (k key : string) :
  dotted k key → ∃ suffix : string, key = k +:+ suffix.
Proof.
  induction 1 as [|key k2 _ [suffix ->]].
  - exists "". by rewrite string_app_nil_r.
  - exists (suffix +:+ "." +:+ k2). apply string_app_assoc.
Qed.

(** C10.  [AddQuery] only appends.  For every key of the multi-map there is
    a list [added] of new values such that the slice under the key
    afterwards is the slice before followed by [added]: an entry present
    before keeps its values, in place and in order; where nothing is added
    the key is as it was (absent keys stay absent); and where something is
    added the key is [k] or [k] extended by dot-joined suffixes, so it
    starts with [k]. *)
Theorem AddQuery_only_appends
    (q : url.Values) (k : string) (v : value) (key : string) :
  ∃ added : list string,
    url.at_key (AddQuery q k v) key = url.at_key q key ++ added
    ∧ (∀ vs, q !! key = Some vs → AddQuery q k v !! key = Some (vs ++ added))
    ∧ (added = [] → AddQuery q k v !! key = q !! key)
    ∧ (added ≠ [] → dotted k key ∧ ∃ suffix, key = k +:+ suffix).
Proof.
  exists (values_under key (query_entries k v)).
  rewrite AddQuery_entries. split; [apply at_key_add_entries|].
  rewrite lookup_add_entries. split; [|split].
  - intros vs Hvs. unfold url.at_key.
    rewrite (lookup_total_correct q key vs Hvs).
    case_decide as Hnil; [by rewrite Hnil, app_nil_r | done].
  - intros ->. by rewrite decide_True.
  - intros Hadded.
    assert (dotted k key) as Hd; [|by split; [|apply dotted_prefix]].
    unfold values_under in Hadded.
    destruct (filter (λ e, e.1 = key) (query_entries k v)) as [|e es] eqn:Hf;
      [done|].
    assert (e ∈ filter (λ e, e.1 = key) (query_entries k v)) as He
      by (rewrite Hf; left).
    apply list_elem_of_filter in He as [<- He].
    by apply (query_entries_dotted v).
Qed.

(** ** The dispatchers *)

Lemma HandleGet_outcome (rt : Runtime) (p : Client) (url : string) (m : string_map) :
  HandleGet rt p url m =
    match get_request rt url m with
    | Fail e => (None, Some e)
    | Ok req =>
        match Do p req with
        | Fail e => (None, Some e)
        | Ok resp =>
            match http.Body resp with
            | Fail e => (None, Some e)
            | Ok body =>
                if decide (http.StatusCode resp = http.StatusOK)
                then (Some body, None)
                else (None, None)
            end
        end
    end.
Proof.
  unfold HandleGet, get_request, ioutil.ReadAll.
  by destruct (NewRequest rt "GET" url None).
Qed.

Lemma HandlePost_outcome (rt : Runtime) (p : Client) (url : string)
    (request : value) :
  HandlePost rt p url request =
    match json_Marshal rt request with
    | Fail e => (None, Some e)
    | Ok b =>
        match post_request rt url b with
        | Fail e => (None, Some e)
        | Ok req =>
            match Do p req with
            | Fail e => (None, Some e)
            | Ok resp =>
                match http.Body resp with
                | Fail e => (None, Some e)
                | Ok body =>
                    if decide (http.StatusCode resp = http.StatusOK)
                    then (Some body, None)
                    else (None, None)
                end
            end
        end
    end.
Proof.
  unfold HandlePost, post_request, ioutil.ReadAll.
  destruct (json_Marshal rt request) as [b|e]; [|done].
  by destruct (NewRequest rt "POST" url (Some b)).
Qed.

Lemma HandleGet_answered (rt : Runtime) (p : Client) (url : string) (m : string_map)
    (st : Z) (body : list byte) :
  answered p (get_request rt url m) st body →
  HandleGet rt p url m =
    if decide (st = http.StatusOK) then (Some body, None) else (None, None).
Proof.
  intros (req & resp & Hreq & Hdo & <- & Hbody).
  by rewrite HandleGet_outcome, Hreq, Hdo, Hbody.
Qed.

Lemma HandlePost_answered (rt : Runtime) (p : Client) (url : string)
    (request : value) (b : list byte) (st : Z) (body : list byte) :
  json_Marshal rt request = Ok b →
  answered p (post_request rt url b) st body →
  HandlePost rt p url request =
    if decide (st = http.StatusOK) then (Some body, None) else (None, None).
Proof.
  intros Hb (req & resp & Hreq & Hdo & <- & Hbody).
  by rewrite HandlePost_outcome, Hb, Hreq, Hdo, Hbody.
Qed.

Lemma HandleGet_failure (rt : Runtime) (p : Client) (url : string) (m : string_map)
    (e : error) :
  transport_failure p (get_request rt url m) e →
  HandleGet rt p url m = (None, Some e).
Proof.
  rewrite HandleGet_outcome.
  intros [Hreq|req Hreq Hdo|req resp Hreq Hdo Hbody]; rewrite Hreq; [done|..].
  - by rewrite Hdo.
  - by rewrite Hdo, Hbody.
Qed.

Lemma HandlePost_failure (rt : Runtime) (p : Client) (url : string)
    (request : value) (b : list byte) (e : error) :
  json_Marshal rt request = Ok b →
  transport_failure p (post_request rt url b) e →
  HandlePost rt p url request = (None, Some e).
Proof.
  intros Hb. rewrite HandlePost_outcome, Hb.
  intros [Hreq|req Hreq Hdo|req resp Hreq Hdo Hbody]; rewrite Hreq; [done|..].
  - by rewrite Hdo.
  - by rewrite Hdo, Hbody.
Qed.

Lemma HandlePost_cases (rt : Runtime) (p : Client) (url : string)
    (request : value) :
  (∃ e, json_Marshal rt request = Fail e
        ∧ HandlePost rt p url request = (None, Some e))
  ∨ (∃ b e, json_Marshal rt request = Ok b
            ∧ transport_failure p (post_request rt url b) e
            ∧ HandlePost rt p url request = (None, Some e))
  ∨ (∃ b st body, json_Marshal rt request = Ok b
                  ∧ answered p (post_request rt url b) st body
                  ∧ HandlePost rt p url request =
                      if decide (st = http.StatusOK)
                      then (Some body, None) else (None, None)).
Proof.
  rewrite HandlePost_outcome.
  destruct (json_Marshal rt request) as [b|e]; [|left; by exists e].
  right.
  destruct (post_request rt url b) as [req|e] eqn:Hreq.
  2: { left. exists b, e. split; [done|]. split; [by apply build_fails|done]. }
  destruct (Do p req) as [resp|e] eqn:Hdo.
  2: { left. exists b, e. split; [done|].
       split; [by apply (send_fails _ _ _ req)|done]. }
  destruct (http.Body resp) as [body|e] eqn:Hbody.
  2: { left. exists b, e. split; [done|].
       split; [by apply (read_fails _ _ _ req resp)|done]. }
  right. exists b, (http.StatusCode resp), body.
  split; [done|]. split; [|done]. by exists req, resp.
Qed.

(** ** Decoding an empty body *)

Lemma checkValid_nil :
  json.checkValid [] json.new_scanner = Some (SyntaxError UnexpectedEnd 0).
Proof. reflexivity. Qed.

Lemma unmarshal_field_nil {T F : Type}
    (decode : list byte → T → T * option error) (zero : T) (field : T → F) :
  unmarshal_field decode zero field None
    = (None, Some (SyntaxError UnexpectedEnd 0)).
Proof.
  unfold unmarshal_field, json.Unmarshal, bytes_of.
  change (default [] None) with (@nil byte). by rewrite checkValid_nil.
Qed.

(** ** The endpoint operations *)

Ltac decode_empty_body H :=
  first [ rewrite (HandleGet_answered _ _ _ _ _ _ H)
        | rewrite (HandlePost_answered _ _ _ _ _ _ _ ltac:(eassumption) H) ];
  rewrite decide_False by done;
  apply unmarshal_field_nil.

(** C1, as the code has it.  When an exchange is answered with a status
    other than 200 (the response received and its body read), both
    dispatchers return a nil body and a nil error, and [DeleteRun], which
    never looks at the body, returns a nil error.  The six operations that
    decode the body return a nil result together with a non-nil error: the
    [*json.SyntaxError] "unexpected end of JSON input" at offset 0 that
    [json.Unmarshal] reports for the nil body.  [CreateRun] and [UpdateRun]
    are covered through the time they pass on. *)
Theorem non_200_outcome (rt : Runtime) (p : Client) (st : Z) (body : list byte) :
  st ≠ http.StatusOK →
  (∀ url m,
     answered p (get_request rt url m) st body →
     HandleGet rt p url m = (None, None))
  ∧ (∀ url request b,
       json_Marshal rt request = Ok b →
       answered p (post_request rt url b) st body →
       HandlePost rt p url request = (None, None))
  ∧ (∀ runId b,
       json_Marshal rt (VMap [("run_id", VString runId)]) = Ok b →
       answered p
         (post_request rt (BaseUrl p +:+ "/api/2.0/mlflow/runs/delete") b)
         st body →
       DeleteRun rt p runId = None)
  ∧ (∀ experimentId,
       answered p
         (get_request rt (BaseUrl p +:+ "/api/2.0/mlflow/experiments/get")
            [("experiment_id", VString experimentId)])
         st body →
       GetExperiment rt p experimentId
         = (None, Some (SyntaxError UnexpectedEnd 0)))
  ∧ (∀ name,
       answered p
         (get_request rt
            (BaseUrl p +:+ "/api/2.0/mlflow/experiments/get-by-name")
            [("experiment_name", VString name)])
         st body →
       GetExperimentsByName rt p name
         = (None, Some (SyntaxError UnexpectedEnd 0)))
  ∧ (∀ name b,
       json_Marshal rt (VMap [("name", VString name)]) = Ok b →
       answered p
         (post_request rt (BaseUrl p +:+ "/api/2.0/mlflow/experiments/create") b)
         st body →
       CreateExperiment rt p name
         = (None, Some (SyntaxError UnexpectedEnd 0)))
  ∧ (∀ experimentId startTime tags b,
       json_Marshal rt
         (VMap [("experiment_id", VString experimentId);
                ("start_time", VInt64 startTime);
                ("tags", VOther (OTags tags))]) = Ok b →
       answered p
         (post_request rt (BaseUrl p +:+ "/api/2.0/mlflow/runs/create") b)
         st body →
       CreateRunWithStartTime rt p experimentId startTime tags
         = (None, Some (SyntaxError UnexpectedEnd 0))
       ∧ (startTime = time_Now_Unix rt →
          CreateRun rt p experimentId tags
            = (None, Some (SyntaxError UnexpectedEnd 0))))
  ∧ (∀ runId status endTime b,
       json_Marshal rt
         (VMap [("run_id", VString runId);
                ("status", VOther (ORunStatus status));
                ("end_time", VInt64 endTime)]) = Ok b →
       answered p
         (post_request rt (BaseUrl p +:+ "/api/2.0/mlflow/runs/update") b)
         st body →
       UpdateRunWithEndTime rt p runId status endTime
         = (None, Some (SyntaxError UnexpectedEnd 0))
       ∧ (endTime = time_Now_Unix rt →
          UpdateRun rt p runId status
            = (None, Some (SyntaxError UnexpectedEnd 0))))
  ∧ (∀ runId,
       answered p
         (get_request rt (BaseUrl p +:+ "/api/2.0/mlflow/runs/get")
            [("run_id", VString runId)])
         st body →
       GetRun rt p runId = (None, Some (SyntaxError UnexpectedEnd 0))).
Proof.
  intros Hst. repeat match goal with |- _ ∧ _ => split end.
  - intros url m H.
    by rewrite (HandleGet_answered _ _ _ _ _ _ H), decide_False.
  - intros url request b Hb H.
    by rewrite (HandlePost_answered _ _ _ _ _ _ _ Hb H), decide_False.
  - intros runId b Hb H. unfold DeleteRun.
    by rewrite (HandlePost_answered _ _ _ _ _ _ _ Hb H), decide_False.
  - intros experimentId H. unfold GetExperiment. decode_empty_body H.
  - intros name H. unfold GetExperimentsByName. decode_empty_body H.
  - intros name b Hb H. unfold CreateExperiment. decode_empty_body H.
  - intros experimentId startTime tags b Hb H. split; [|intros ->; unfold CreateRun];
      unfold CreateRunWithStartTime; decode_empty_body H.
  - intros runId status endTime b Hb H. split; [|intros ->; unfold UpdateRun];
      unfold UpdateRunWithEndTime; decode_empty_body H.
  - intros runId H. unfold GetRun. decode_empty_body H.
Qed.

(** The service that answers 404 to every request. *)
Lemma non_200_outcome_witness :
  404 ≠ http.StatusOK
  ∧ GetExperiment Examples.runtime Examples.client_404 "1"
    = (None, Some (SyntaxError UnexpectedEnd 0))
  ∧ DeleteRun Examples.runtime Examples.client_404 "r1" = None.
Proof.
  assert (404 ≠ http.StatusOK) as Hst by (by vm_compute).
  pose proof (non_200_outcome Examples.runtime Examples.client_404 404 [] Hst)
    as (_ & _ & Hdelete & Hget & _).
  split; [exact Hst|]. split.
  - apply (Hget "1"). do 2 eexists. by repeat split.
  - apply (Hdelete "r1" (Examples.text "{}")); [done|].
    do 2 eexists. by repeat split.
Defined.

(** C1 fails as stated: against a service that answers 404 with an empty
    body, [GetExperiment] returns a nil result and a non-nil error. *)
Lemma GetExperiment_404_error :
  GetExperiment Examples.runtime Examples.client_404 "1"
    = (None, Some (SyntaxError UnexpectedEnd 0))
  ∧ GetExperiment Examples.runtime Examples.client_404 "1" ≠ (None, None).
Proof. split; [by vm_compute|]. by vm_compute. Qed.

(** C7.  A dispatch whose exchange fails at the transport level (the
    request cannot be built, [Do] fails, or the body cannot be read) returns
    that very error with a nil body, for GET and for POST; and a POST whose
    request value [json.Marshal] rejects returns the serialisation error
    with a nil body. *)
Theorem dispatch_failure_surfaces
    (rt : Runtime) (p : Client) (url : string) (e : error) :
  (∀ m,
     transport_failure p (get_request rt url m) e →
     HandleGet rt p url m = (None, Some e))
  ∧ (∀ request,
       json_Marshal rt request = Fail e →
       HandlePost rt p url request = (None, Some e))
  ∧ (∀ request b,
       json_Marshal rt request = Ok b →
       transport_failure p (post_request rt url b) e →
       HandlePost rt p url request = (None, Some e)).
Proof.
  split; [|split].
  - intros m. apply HandleGet_failure.
  - intros request Hb. by rewrite HandlePost_outcome, Hb.
  - intros request b. apply HandlePost_failure.
Qed.

(** An unreachable service, a value that does not serialise, and an answer
    that breaks off. *)
Lemma dispatch_failure_surfaces_witness :
  HandleGet Examples.runtime Examples.client_down
    "http://localhost:5000/api/2.0/mlflow/runs/get" [("run_id", VString "r1")]
    = (None, Some Examples.connection_refused)
  ∧ HandlePost Examples.runtime_strict Examples.client_200
      "http://localhost:5000/api/2.0/mlflow/runs/delete"
      (VOther (OForeign "chan int" ""))
    = (None, Some (LibraryError "json" "unsupported type: chan int"))
  ∧ HandlePost Examples.runtime Examples.client_truncated
      "http://localhost:5000/api/2.0/mlflow/runs/delete"
      (VMap [("run_id", VString "r1")])
    = (None, Some Examples.unexpected_EOF).
Proof.
  split; [|split].
  - apply (proj1 (dispatch_failure_surfaces Examples.runtime Examples.client_down
                    _ Examples.connection_refused)).
    by eapply send_fails.
  - by apply (proj1 (proj2 (dispatch_failure_surfaces Examples.runtime_strict
                              Examples.client_200 _ _))).
  - apply (proj2 (proj2 (dispatch_failure_surfaces Examples.runtime
                           Examples.client_truncated _ Examples.unexpected_EOF))
             _ (Examples.text "{}")); [done|].
    by eapply read_fails.
Defined.

(** C8.  [CreateRun] is [CreateRunWithStartTime] at the epoch seconds that
    the clock shows at the call, and [UpdateRun] is [UpdateRunWithEndTime]
    at the epoch seconds that the clock shows at the call. *)
Theorem run_time_defaults (rt : Runtime) (p : Client) :
  (∀ experimentId tags,
     CreateRun rt p experimentId tags
       = CreateRunWithStartTime rt p experimentId (time_Now_Unix rt) tags)
  ∧ (∀ runId status,
       UpdateRun rt p runId status
         = UpdateRunWithEndTime rt p runId status (time_Now_Unix rt)).
Proof. split; reflexivity. Qed.

(** C9.  [DeleteRun] returns a nil error whenever the exchange is answered,
    whatever the status and the body, which it never decodes; the error it
    returns is non-nil exactly when [json.Marshal] fails on the request
    value or the exchange fails at the transport level, and it is then that
    error. *)
Theorem DeleteRun_error (rt : Runtime) (p : Client) (runId : string) :
  let url := BaseUrl p +:+ "/api/2.0/mlflow/runs/delete" in
  let request := VMap [("run_id", VString runId)] in
  (∀ b st body,
     json_Marshal rt request = Ok b →
     answered p (post_request rt url b) st body →
     DeleteRun rt p runId = None)
  ∧ (∀ e,
       DeleteRun rt p runId = Some e ↔
         json_Marshal rt request = Fail e
         ∨ ∃ b, json_Marshal rt request = Ok b
                ∧ transport_failure p (post_request rt url b) e).
Proof.
  intros url request. unfold DeleteRun. fold url. fold request. split.
  - intros b st body Hb H.
    rewrite (HandlePost_answered _ _ _ _ _ _ _ Hb H). by case_decide.
  - intros e. split.
    + destruct (HandlePost_cases rt p url request)
        as [(e' & Hb & ->)|[(b & e' & Hb & Hfail & ->)|(b & st & body & Hb & _ & ->)]].
      * intros [= ->]. by left.
      * intros [= ->]. right. by exists b.
      * by case_decide.
    + intros [Hb|(b & Hb & Hfail)].
      * by rewrite HandlePost_outcome, Hb.
      * by rewrite (HandlePost_failure _ _ _ _ _ _ Hb Hfail).
Qed.

(** Answers with status 200, 404 and 500, an unreachable service, and a
    base URL that does not parse. *)
Lemma DeleteRun_error_witness :
  DeleteRun Examples.runtime Examples.client_200 "r1" = None
  ∧ DeleteRun Examples.runtime Examples.client_404 "r1" = None
  ∧ DeleteRun Examples.runtime Examples.client_500 "r1" = None
  ∧ DeleteRun Examples.runtime Examples.client_down "r1"
    = Some Examples.connection_refused
  ∧ DeleteRun Examples.runtime_bad_url Examples.client_200 "r1"
    = Some (LibraryError "url" "invalid URL").
Proof.
  repeat match goal with |- _ ∧ _ => split end.
  - apply (proj1 (DeleteRun_error Examples.runtime Examples.client_200 "r1")
             (Examples.text "{}") 200 (Examples.text "{}")); [done|].
    do 2 eexists. by repeat split.
  - apply (proj1 (DeleteRun_error Examples.runtime Examples.client_404 "r1")
             (Examples.text "{}") 404 []); [done|].
    do 2 eexists. by repeat split.
  - apply (proj1 (DeleteRun_error Examples.runtime Examples.client_500 "r1")
             (Examples.text "{}") 500 (Examples.text "<html>error</html>"));
      [done|].
    do 2 eexists. by repeat split.
  - apply (proj2 (DeleteRun_error Examples.runtime Examples.client_down "r1")).
    right. exists (Examples.text "{}"). split; [done|]. by eapply send_fails.
  - apply (proj2 (DeleteRun_error Examples.runtime_bad_url Examples.client_200 "r1")).
    right. exists (Examples.text "{}"). split; [done|]. by apply build_fails.
Defined.

(** * Further properties of the flattening *)

Lemma length_query_entries (v : value) :
  ∀ key : string, length (query_entries key v) = count_leaves v.
Proof.
  induction v as [s|n|n|b|xs|vs IH|m IH|o] using value_nested_ind;
    intros key; csimpl; try done.
  - by rewrite length_fmap.
  - induction IH as [|v vs Hv _ IHvs]; [done|].
    csimpl. by rewrite length_app, Hv, IHvs.
  - induction IH as [|kv m Hkv _ IHm]; [done|].
    csimpl. by rewrite length_app, Hkv, IHm.
Qed.

Lemma add_entries_lookup_nonempty (es : list (string * string))
    (q : url.Values) (key : string) (vs : list string) :
  (∀ key vs, q !! key = Some vs → vs ≠ []) →
  add_entries q es !! key = Some vs → vs ≠ [].
Proof.
  intros Hq. rewrite lookup_add_entries.
  case_decide as Hnil; [apply Hq|].
  intros [= <-] [_ ?]%app_eq_nil. done.
Qed.

Lemma add_entries_lookup_mono (es : list (string * string))
    (q : url.Values) (key : string) :
  is_Some (q !! key) → is_Some (add_entries q es !! key).
Proof. rewrite lookup_add_entries. by case_decide. Qed.

Lemma values_under_nonempty (key : string) (es : list (string * string)) :
  values_under key es ≠ [] → ∃ x, (key, x) ∈ es.
Proof.
  unfold values_under. intros Hne.
  destruct (filter (λ e, e.1 = key) es) as [|[k x] rest] eqn:Hf; [done|].
  assert ((k, x) ∈ filter (λ e, e.1 = key) es) as Hin by (rewrite Hf; left).
  apply list_elem_of_filter in Hin as [Hk Hin]. simpl in Hk. subst k.
  by exists x.
Qed.

(** X1.  The number of entries that [AddQuery] adds is the number of
    strings, integers and booleans held by the value at any depth, whatever
    the key and the multi-map; flattening a whole mapping adds the sum over
    its values. *)
Theorem AddQuery_adds_one_entry_per_leaf :
  (∀ (q : url.Values) (k : string) (v : value),
     url.num_entries (AddQuery q k v) = (url.num_entries q + count_leaves v)%nat)
  ∧ (∀ (q : url.Values) (m : string_map),
       url.num_entries (AddQueries q m)
         = (url.num_entries q + count_leaves (VMap m))%nat).
Proof.
  split.
  - intros q k v.
    by rewrite AddQuery_entries, num_entries_add_entries,
      (length_query_entries v k).
  - intros q m. revert q. induction m as [|kv m IH]; intros q; [simpl; lia|].
    rewrite AddQueries_cons, IH, AddQuery_entries, num_entries_add_entries,
      (length_query_entries kv.2 kv.1).
    simpl. lia.
Qed.

(** X2.  [AddQuery] leaves the multi-map as it was exactly when the value
    holds no string, integer or boolean at any depth (an unsupported value,
    an empty list or mapping, or lists and mappings of such). *)
Theorem AddQuery_unchanged_iff_no_leaf
    (q : url.Values) (k : string) (v : value) :
  AddQuery q k v = q ↔ count_leaves v = 0%nat.
Proof.
  split.
  - intros Heq.
    pose proof (num_entries_add_entries (query_entries k v) q) as Hnum.
    rewrite <- AddQuery_entries, Heq, (length_query_entries v k) in Hnum. lia.
  - intros Hzero. rewrite AddQuery_entries.
    pose proof (length_query_entries v k) as Hlen. rewrite Hzero in Hlen.
    by apply nil_length_inv in Hlen as ->.
Qed.

(** X3.  [AddQuery] never removes a key, whatever the multi-map holds; and
    when every key of the multi-map holds at least one value beforehand, so
    does every key afterwards: no key is created with an empty slice. *)
Theorem AddQuery_keeps_keys_and_nonempty_slices
    (q : url.Values) (k : string) (v : value) :
  dom q ⊆ dom (AddQuery q k v)
  ∧ ((∀ key vs, q !! key = Some vs → vs ≠ []) →
     ∀ key vs, AddQuery q k v !! key = Some vs → vs ≠ []).
Proof.
  rewrite AddQuery_entries. split.
  - intros key. rewrite !elem_of_dom. apply add_entries_lookup_mono.
  - intros Hq key vs. by apply add_entries_lookup_nonempty.
Qed.

(** The query of a URL with two parameters, extended by a nested value. *)
Lemma AddQuery_keeps_keys_and_nonempty_slices_witness :
  dom ({["page" := ["1"]; "tag" := ["a"; "b"]]} : url.Values)
    ⊆ dom (AddQuery {["page" := ["1"]; "tag" := ["a"; "b"]]} "tag"
             (VMap [("x", VList []); ("y", VInt 2)]))
  ∧ (∀ key vs,
       AddQuery {["page" := ["1"]; "tag" := ["a"; "b"]]} "tag"
         (VMap [("x", VList []); ("y", VInt 2)]) !! key = Some vs →
       vs ≠ []).
Proof.
  split.
  - apply (proj1 (AddQuery_keeps_keys_and_nonempty_slices
                    {["page" := ["1"]; "tag" := ["a"; "b"]]} "tag"
                    (VMap [("x", VList []); ("y", VInt 2)]))).
  - apply (proj2 (AddQuery_keeps_keys_and_nonempty_slices
                    {["page" := ["1"]; "tag" := ["a"; "b"]]} "tag"
                    (VMap [("x", VList []); ("y", VInt 2)]))).
    change (map_Forall (fun (_ : string) (vs : list string) => vs ≠ [])
              (<["page" := ["1"]]> (<["tag" := ["a"; "b"]]> (∅ : url.Values)))).
    apply map_Forall_insert_2; [done|].
    apply map_Forall_insert_2; [done|].
    apply map_Forall_empty.
Defined.

(** X4.  The flattening loop of [HandleGet] only appends: under every key
    the values that the query of the URL already held stay in front, in
    place and in order, a key that receives nothing is as it was, and a key
    that receives values is a key of the parameter mapping or such a key
    extended by dot-joined suffixes. *)
Theorem AddQueries_only_appends
    (q : url.Values) (m : string_map) (key : string) :
  ∃ added : list string,
    url.at_key (AddQueries q m) key = url.at_key q key ++ added
    ∧ (∀ vs, q !! key = Some vs → AddQueries q m !! key = Some (vs ++ added))
    ∧ (added = [] → AddQueries q m !! key = q !! key)
    ∧ (added ≠ [] → ∃ k v, (k, v) ∈ m ∧ dotted k key).
Proof.
  set (es := mjoin ((fun kv => query_entries kv.1 kv.2) <$> m)).
  exists (values_under key es).
  rewrite AddQueries_entries. fold es.
  split; [apply at_key_add_entries|].
  rewrite lookup_add_entries. split; [|split].
  - intros vs Hvs. unfold url.at_key.
    rewrite (lookup_total_correct q key vs Hvs).
    case_decide as Hnil; [by rewrite Hnil, app_nil_r | done].
  - intros ->. by rewrite decide_True.
  - intros [x Hx]%values_under_nonempty.
    apply list_elem_of_join in Hx as (l & Hx & Hl).
    apply list_elem_of_fmap in Hl as ([k v] & -> & Hkv).
    exists k, v. split; [done|].
    by apply (query_entries_dotted v k (key, x)).
Qed.

Lemma values_under_Permutation (key : string) (es es' : list (string * string)) :
  es ≡ₚ es' → values_under key es ≡ₚ values_under key es'.
Proof. unfold values_under. by intros ->. Qed.

Lemma elem_of_dom_add_entries (q : url.Values) (es : list (string * string))
    (key : string) :
  key ∈ dom (add_entries q es) ↔ key ∈ dom q ∨ values_under key es ≠ [].
Proof.
  rewrite !elem_of_dom, lookup_add_entries.
  destruct (decide (values_under key es = [])) as [Hnil|Hne].
  - split; [by left|]. by intros [?|?].
  - split; [by right|]. by intros _.
Qed.

Lemma add_entries_same_values (q q' : url.Values)
    (es es' : list (string * string)) :
  same_values q q' → es ≡ₚ es' →
  same_values (add_entries q es) (add_entries q' es').
Proof.
  intros [Hdom Hat] Hperm. split.
  - apply set_eq. intros key. rewrite !elem_of_dom_add_entries, Hdom.
    pose proof (values_under_Permutation key es es' Hperm) as Hkey.
    assert (values_under key es = [] ↔ values_under key es' = []) as Hnil.
    { split; intros Hn; rewrite Hn in Hkey.
      - by apply Permutation_nil_l in Hkey.
      - by apply Permutation_nil_r in Hkey. }
    by rewrite Hnil.
  - intros key. rewrite !at_key_add_entries.
    by rewrite (Hat key), (values_under_Permutation key es es' Hperm).
Qed.

Lemma map_entries_reordered (g : string → string)
    (m m' m'' : string_map) :
  Forall (fun kv => ∀ v' key, reordered kv.2 v' →
            query_entries key kv.2 ≡ₚ query_entries key v') m →
  Forall2 (fun kv kv' => kv.1 = kv'.1 ∧ reordered kv.2 kv'.2) m m' →
  m' ≡ₚ m'' →
  mjoin ((fun kv => query_entries (g kv.1) kv.2) <$> m)
    ≡ₚ mjoin ((fun kv => query_entries (g kv.1) kv.2) <$> m'').
Proof.
  intros IH Hm Hperm. rewrite <- Hperm. clear Hperm m''.
  induction Hm as [|kv kv' m m' [Hk Hv] _ IHm]; [done|].
  apply Forall_cons in IH as [IHkv IH].
  csimpl. rewrite <- Hk. by rewrite (IHkv _ (g kv.1) Hv), (IHm IH).
Qed.

Lemma reordered_entries (v : value) :
  ∀ v' key, reordered v v' → query_entries key v ≡ₚ query_entries key v'.
Proof.
  induction v as [s|n|n|b|xs|vs IH|m IH|o] using value_nested_ind;
    intros v' key Hre; inversion Hre as [|? vs' Hvs|? m' m'' Hm Hperm];
    subst; try done.
  - csimpl. clear Hre. induction Hvs as [|v v' vs vs' Hv _ IHvs]; [done|].
    apply Forall_cons in IH as [IHv IH].
    csimpl. by rewrite (IHv _ key Hv), (IHvs IH).
  - csimpl.
    by apply (map_entries_reordered (fun k => key +:+ "." +:+ k) m m' m'').
Qed.

Lemma reordered_params_entries (m m'' : string_map) :
  reordered (VMap m) (VMap m'') →
  mjoin ((fun kv => query_entries kv.1 kv.2) <$> m)
    ≡ₚ mjoin ((fun kv => query_entries kv.1 kv.2) <$> m'').
Proof.
  intros Hre. inversion Hre as [| |? m' ? Hm Hperm]; subst; [done|].
  apply (map_entries_reordered (fun k => k) m m' m''); [|done..].
  apply Forall_forall. intros kv _. apply reordered_entries.
Qed.

Lemma Permutation_reordered (m m' : string_map) :
  m ≡ₚ m' → reordered (VMap m) (VMap m').
Proof.
  intros Hperm. apply (reordered_map m m m'); [|done].
  clear Hperm. induction m as [|kv m IH]; [constructor|].
  constructor; [|done]. split; [done|]. apply reordered_same.
Qed.

Lemma AddQueries_scalars_Permutation (q : url.Values) (m m' : string_map) :
  m ≡ₚ m' →
  NoDup m.*1 →
  Forall (fun kv => is_Some (scalar_string kv.2)) m →
  AddQueries q m = AddQueries q m'.
Proof.
  intros Hperm Hdup Hsc.
  assert (NoDup m'.*1) as Hdup' by (by rewrite <- Hperm).
  assert (Forall (fun kv => is_Some (scalar_string kv.2)) m') as Hsc'
    by (by rewrite <- Hperm).
  destruct (AddQueries_scalars m Hdup Hsc q) as (Hin & Hout & _).
  destruct (AddQueries_scalars m' Hdup' Hsc' q) as (Hin' & Hout' & _).
  apply map_eq. intros key.
  destruct (decide (key ∈ m.*1)) as [Hkey|Hkey].
  - apply list_elem_of_fmap in Hkey as ([k v] & -> & Hkv). simpl.
    rewrite Forall_forall in Hsc. destruct (Hsc _ Hkv) as [s Hs].
    rewrite (Hin k v s Hkv Hs). symmetry. apply (Hin' k v s); [|done].
    by rewrite <- Hperm.
  - rewrite (Hout key Hkey). symmetry. apply Hout'. by rewrite <- Hperm.
Qed.

(** X5.  The order in which Go ranges over maps can change only the order
    of the values under a key.  Take a value and the same value with the
    entries of its maps, at any depth, in another order, and two multi-maps
    with the same keys and the same values under each key up to order:
    after [AddQuery], and after the flattening loop of [HandleGet] for a
    parameter mapping, the two results again have the same keys and the
    same values under each key up to order.  (A mapping in a permuted order
    is such a reordering.)  For a mapping whose values are all strings,
    integers and booleans the order changes nothing at all.  In general it
    can change the result: a nested mapping and a dotted key may meet under
    one key. *)
Theorem map_order_changes_only_value_order :
  (∀ (q q' : url.Values) (k : string) (v v' : value),
     same_values q q' → reordered v v' →
     same_values (AddQuery q k v) (AddQuery q' k v'))
  ∧ (∀ (q q' : url.Values) (m m' : string_map),
       same_values q q' → reordered (VMap m) (VMap m') →
       same_values (AddQueries q m) (AddQueries q' m'))
  ∧ (∀ m m' : string_map, m ≡ₚ m' → reordered (VMap m) (VMap m'))
  ∧ (∀ (q : url.Values) (m m' : string_map),
       m ≡ₚ m' →
       NoDup m.*1 →
       Forall (fun kv => is_Some (scalar_string kv.2)) m →
       AddQueries q m = AddQueries q m')
  ∧ (∃ (q : url.Values) (m m' : string_map),
       m ≡ₚ m' ∧ NoDup m.*1 ∧ AddQueries q m ≠ AddQueries q m').
Proof.
  repeat match goal with |- _ ∧ _ => split end.
  - intros q q' k v v' Hq Hre. rewrite !AddQuery_entries.
    apply add_entries_same_values; [done|]. by apply reordered_entries.
  - intros q q' m m' Hq Hre. rewrite !AddQueries_entries.
    apply add_entries_same_values; [done|]. by apply reordered_params_entries.
  - apply Permutation_reordered.
  - intros q m m'. apply AddQueries_scalars_Permutation.
  - exists ∅, [("a", VMap [("b", VInt 1)]); ("a.b", VInt 2)],
      [("a.b", VInt 2); ("a", VMap [("b", VInt 1)])].
    split; [apply perm_swap|]. split.
    + apply (bool_decide_unpack _). by vm_compute.
    + intros Heq. apply (f_equal (fun q : url.Values => q !! "a.b")) in Heq.
      vm_compute in Heq. discriminate Heq.
Qed.

(** A parameter mapping holding a nested mapping, both ranged over in the
    other order. *)
Lemma map_order_changes_only_value_order_witness :
  same_values
    (AddQueries ∅
       [("filter", VMap [("a", VInt 1); ("b", VInt 2); ("c", VString "z")]);
        ("page", VInt 3)])
    (AddQueries ∅
       [("page", VInt 3);
        ("filter", VMap [("b", VInt 2); ("c", VString "z"); ("a", VInt 1)])]).
Proof.
  apply (proj1 (proj2 map_order_changes_only_value_order)).
  - split; [done|]. by intros key.
  - apply (reordered_map _
             [("filter", VMap [("b", VInt 2); ("c", VString "z"); ("a", VInt 1)]);
              ("page", VInt 3)]).
    + constructor.
      * split; [done|].
        apply (reordered_map _
                 [("a", VInt 1); ("b", VInt 2); ("c", VString "z")]).
        -- repeat constructor.
        -- apply Permutation_cons_append.
      * constructor; [|constructor]. split; [done|]. apply reordered_same.
    + apply perm_swap.
Defined.

(** X6.  A dot inside a key cannot be told from nesting: a parameter under
    the key "k.k2" gives the same query as the parameter mapping {k2: v}
    under the key k, at the top level and inside a nested mapping. *)
Theorem dotted_key_same_as_nesting
    (q : url.Values) (k k2 : string) (v : value) :
  AddQueries q [(k +:+ "." +:+ k2, v)] = AddQueries q [(k, VMap [(k2, v)])]
  ∧ (∀ k0,
       AddQuery q k0 (VMap [(k +:+ "." +:+ k2, v)])
         = AddQuery q k0 (VMap [(k, VMap [(k2, v)])])).
Proof.
  split; [reflexivity|].
  intros k0. simpl.
  by rewrite <- !string_app_assoc.
Qed.

Lemma query_entries_strings (k : string) (xs : list string) :
  query_entries k (VList (VString <$> xs)) = (fun x => (k, x)) <$> xs.
Proof. induction xs as [|x xs IH]; [done|]. csimpl in *. by rewrite IH. Qed.

Lemma query_entries_list_join (k : string) (vss : list (list value)) :
  query_entries k (VList (VList <$> vss)) = query_entries k (VList (mjoin vss)).
Proof.
  induction vss as [|vs vss IH]; [done|].
  csimpl in *. by rewrite IH, fmap_app, join_app.
Qed.

(** X7.  Only the sequence of elements of a list matters: a list of
    strings gives the same query as a list of values holding those strings,
    flattening a concatenation is flattening one list after the other, and
    a list of lists gives the same query as the one list of all their
    elements. *)
Theorem list_shapes_flatten_alike (q : url.Values) (k : string) :
  (∀ xs, AddQuery q k (VStrings xs) = AddQuery q k (VList (VString <$> xs)))
  ∧ (∀ vs1 vs2,
       AddQuery q k (VList (vs1 ++ vs2))
         = AddQuery (AddQuery q k (VList vs1)) k (VList vs2))
  ∧ (∀ vss,
       AddQuery q k (VList (VList <$> vss)) = AddQuery q k (VList (mjoin vss))).
Proof.
  split; [|split].
  - intros xs. by rewrite !AddQuery_entries, query_entries_strings.
  - intros vs1 vs2. simpl. apply foldl_app.
  - intros vss. by rewrite !AddQuery_entries, query_entries_list_join.
Qed.

(** * Further properties of the dispatchers *)

Lemma HandleGet_cases (rt : Runtime) (p : Client) (url : string) (m : string_map) :
  (∃ e, transport_failure p (get_request rt url m) e
        ∧ HandleGet rt p url m = (None, Some e))
  ∨ (∃ st body, answered p (get_request rt url m) st body
                ∧ HandleGet rt p url m =
                    if decide (st = http.StatusOK)
                    then (Some body, None) else (None, None)).
Proof.
  rewrite HandleGet_outcome.
  destruct (get_request rt url m) as [req|e] eqn:Hreq.
  2: { left. exists e. split; [by apply build_fails|done]. }
  destruct (Do p req) as [resp|e] eqn:Hdo.
  2: { left. exists e. split; [by apply (send_fails _ _ _ req)|done]. }
  destruct (http.Body resp) as [body|e] eqn:Hbody.
  2: { left. exists e. split; [by apply (read_fails _ _ _ req resp)|done]. }
  right. exists (http.StatusCode resp), body. split; [|done].
  by exists req, resp.
Qed.

(** X8.  A dispatch that is answered with status 200 returns the bytes of
    the response body as they were read, with a nil error, for GET and for
    POST. *)
Theorem dispatch_200_returns_body
    (rt : Runtime) (p : Client) (url : string) (body : list byte) :
  (∀ m,
     answered p (get_request rt url m) http.StatusOK body →
     HandleGet rt p url m = (Some body, None))
  ∧ (∀ request b,
       json_Marshal rt request = Ok b →
       answered p (post_request rt url b) http.StatusOK body →
       HandlePost rt p url request = (Some body, None)).
Proof.
  split.
  - intros m H. by rewrite (HandleGet_answered _ _ _ _ _ _ H), decide_True.
  - intros request b Hb H.
    by rewrite (HandlePost_answered _ _ _ _ _ _ _ Hb H), decide_True.
Qed.

(** The service that answers 200 with an empty JSON object. *)
Lemma dispatch_200_returns_body_witness :
  HandleGet Examples.runtime Examples.client_200
    "http://localhost:5000/api/2.0/mlflow/runs/get" [("run_id", VString "r1")]
    = (Some (Examples.text "{}"), None)
  ∧ HandlePost Examples.runtime Examples.client_200
      "http://localhost:5000/api/2.0/mlflow/experiments/create"
      (VMap [("name", VString "test4")])
    = (Some (Examples.text "{}"), None).
Proof.
  split.
  - apply (proj1 (dispatch_200_returns_body Examples.runtime Examples.client_200
                    _ (Examples.text "{}"))).
    do 2 eexists. by repeat split.
  - apply (proj2 (dispatch_200_returns_body Examples.runtime Examples.client_200
                    _ (Examples.text "{}")) _ (Examples.text "{}")); [done|].
    do 2 eexists. by repeat split.
Defined.

(** X9.  What a result of a dispatcher tells the caller.  A non-nil body
    comes only from an exchange answered with status 200 and is that
    response body; the pair of a nil body and a nil error comes only from an
    exchange answered with another status; a non-nil error comes only from a
    failed exchange (or, for POST, a failed [json.Marshal]) and is its
    error; and a body never comes together with an error. *)
Theorem dispatch_result_origin (rt : Runtime) (p : Client) (url : string) :
  (∀ m,
     (∀ body, HandleGet rt p url m = (Some body, None) →
        answered p (get_request rt url m) http.StatusOK body)
     ∧ (HandleGet rt p url m = (None, None) →
        ∃ st body, answered p (get_request rt url m) st body
                   ∧ st ≠ http.StatusOK)
     ∧ (∀ e, HandleGet rt p url m = (None, Some e) →
          transport_failure p (get_request rt url m) e)
     ∧ (∀ body e, HandleGet rt p url m ≠ (Some body, Some e)))
  ∧ (∀ request,
       (∀ body, HandlePost rt p url request = (Some body, None) →
          ∃ b, json_Marshal rt request = Ok b
               ∧ answered p (post_request rt url b) http.StatusOK body)
       ∧ (HandlePost rt p url request = (None, None) →
          ∃ b st body, json_Marshal rt request = Ok b
                       ∧ answered p (post_request rt url b) st body
                       ∧ st ≠ http.StatusOK)
       ∧ (∀ e, HandlePost rt p url request = (None, Some e) →
            json_Marshal rt request = Fail e
            ∨ ∃ b, json_Marshal rt request = Ok b
                   ∧ transport_failure p (post_request rt url b) e)
       ∧ (∀ body e, HandlePost rt p url request ≠ (Some body, Some e))).
Proof.
  split.
  - intros m.
    destruct (HandleGet_cases rt p url m)
      as [(e & Hfail & ->)|(st & body & Hans & ->)].
    + repeat match goal with |- _ ∧ _ => split end; try done.
      by intros e' [= <-].
    + destruct (decide (st = http.StatusOK)) as [->|Hst];
        repeat match goal with |- _ ∧ _ => split end; try done.
      * by intros body' [= <-].
      * intros _. by exists st, body.
  - intros request.
    destruct (HandlePost_cases rt p url request)
      as [(e & Hb & ->)|[(b & e & Hb & Hfail & ->)|(b & st & body & Hb & Hans & ->)]].
    + repeat match goal with |- _ ∧ _ => split end; try done.
      intros e' [= <-]. by left.
    + repeat match goal with |- _ ∧ _ => split end; try done.
      intros e' [= <-]. right. by exists b.
    + destruct (decide (st = http.StatusOK)) as [->|Hst];
        repeat match goal with |- _ ∧ _ => split end; try done.
      * intros body' [= <-]. by exists b.
      * intros _. by exists b, st, body.
Qed.

(** A body returned by the service that answers 200. *)
Lemma dispatch_result_origin_witness :
  answered Examples.client_200
    (get_request Examples.runtime "http://localhost:5000/api/2.0/mlflow/runs/get"
       [("run_id", VString "r1")])
    http.StatusOK (Examples.text "{}").
Proof.
  apply (proj1 (proj1 (dispatch_result_origin Examples.runtime Examples.client_200
                         "http://localhost:5000/api/2.0/mlflow/runs/get")
                  [("run_id", VString "r1")])).
  by vm_compute.
Defined.

(** X10.  [HandleGet] sees its parameter mapping only through the
    flattened query: two mappings that flatten alike give the same result.
    So a parameter of an unsupported type is as good as absent, and for
    parameters that are all strings, integers and booleans the order in
    which Go ranges over the mapping does not matter. *)
Theorem HandleGet_sees_only_the_flattening
    (rt : Runtime) (p : Client) (url : string) (m m' : string_map) :
  ((∀ q, AddQueries q m = AddQueries q m') →
   HandleGet rt p url m = HandleGet rt p url m')
  ∧ (∀ k o,
       HandleGet rt p url (m ++ [(k, VOther o)]) = HandleGet rt p url m
       ∧ HandleGet rt p url ((k, VOther o) :: m) = HandleGet rt p url m)
  ∧ (m ≡ₚ m' →
     NoDup m.*1 →
     Forall (fun kv => is_Some (scalar_string kv.2)) m →
     HandleGet rt p url m = HandleGet rt p url m').
Proof.
  assert (∀ m1 m2 : string_map,
            (∀ q, AddQueries q m1 = AddQueries q m2) →
            HandleGet rt p url m1 = HandleGet rt p url m2) as Hflat.
  { intros m1 m2 Heq. rewrite !HandleGet_outcome. unfold get_request.
    destruct (NewRequest rt "GET" url None) as [req|e]; [|done].
    by rewrite Heq. }
  split; [apply Hflat|]. split.
  - intros k o. split; apply Hflat; intros q.
    + unfold AddQueries. by rewrite foldl_app.
    + done.
  - intros Hperm Hdup Hsc. apply Hflat. intros q.
    by apply AddQueries_scalars_Permutation.
Qed.

(** Two scalar parameters in either order. *)
Lemma HandleGet_sees_only_the_flattening_witness :
  HandleGet Examples.runtime Examples.client_200 "http://localhost:5000/search"
    [("experiment_id", VString "1"); ("max_results", VInt 10)]
  = HandleGet Examples.runtime Examples.client_200 "http://localhost:5000/search"
      [("max_results", VInt 10); ("experiment_id", VString "1")].
Proof.
  apply (proj2 (proj2 (HandleGet_sees_only_the_flattening Examples.runtime
                         Examples.client_200 "http://localhost:5000/search"
                         [("experiment_id", VString "1"); ("max_results", VInt 10)]
                         [("max_results", VInt 10); ("experiment_id", VString "1")]))).
  - apply perm_swap.
  - apply (bool_decide_unpack _). by vm_compute.
  - repeat constructor; eexists; reflexivity.
Defined.

(** X11.  The one request a dispatcher hands to [Do].  For GET it has the
    method GET, the parsed location, the encoding of the URL's own query
    extended by the flattened parameters, no header and no body; for POST
    it has the method POST, the parsed URL with its query untouched, the
    single header Content-Type: application/json, and the serialised value
    as body.  The result depends on the client only through the answer of
    [Do] to that request; and when the URL does not parse or, for POST, the
    value does not serialise, no client is consulted at all. *)
Theorem request_handed_to_Do (rt : Runtime) (url : string) (p p' : Client) :
  (∀ m u,
     url_Parse rt url = Ok u →
     Do p {| http.Method := "GET";
             http.Request_URL :=
               {| http.Location := http.Location u;
                  http.RawQuery :=
                    url_Encode rt
                      (AddQueries (url_ParseQuery rt (http.RawQuery u)) m) |};
             http.Request_Header := ∅;
             http.Request_Body := None |}
     = Do p' {| http.Method := "GET";
                http.Request_URL :=
                  {| http.Location := http.Location u;
                     http.RawQuery :=
                       url_Encode rt
                         (AddQueries (url_ParseQuery rt (http.RawQuery u)) m) |};
                http.Request_Header := ∅;
                http.Request_Body := None |} →
     HandleGet rt p url m = HandleGet rt p' url m)
  ∧ (∀ request b u,
       json_Marshal rt request = Ok b →
       url_Parse rt url = Ok u →
       Do p {| http.Method := "POST";
               http.Request_URL := u;
               http.Request_Header := {["Content-Type" := ["application/json"]]};
               http.Request_Body := Some b |}
       = Do p' {| http.Method := "POST";
                  http.Request_URL := u;
                  http.Request_Header := {["Content-Type" := ["application/json"]]};
                  http.Request_Body := Some b |} →
       HandlePost rt p url request = HandlePost rt p' url request)
  ∧ (∀ m e,
       url_Parse rt url = Fail e →
       HandleGet rt p url m = HandleGet rt p' url m)
  ∧ (∀ request e,
       json_Marshal rt request = Fail e
       ∨ url_Parse rt url = Fail e →
       HandlePost rt p url request = HandlePost rt p' url request).
Proof.
  repeat match goal with |- _ ∧ _ => split end.
  - intros m u Hu Hdo. rewrite !HandleGet_outcome.
    unfold get_request, NewRequest, set_RawQuery, URL_Query. rewrite Hu. simpl.
    by rewrite Hdo.
  - intros request b u Hb Hu Hdo. rewrite !HandlePost_outcome, Hb.
    unfold post_request, NewRequest, set_Header, http.Header_Set.
    rewrite Hu. simpl.
    change (<["Content-Type":=["application/json"]]> (∅ : http.Header))
      with ({["Content-Type" := ["application/json"]]} : http.Header).
    by rewrite Hdo.
  - intros m e Hu. rewrite !HandleGet_outcome.
    unfold get_request, NewRequest. by rewrite Hu.
  - intros request e [Hb|Hu]; rewrite !HandlePost_outcome.
    + by rewrite Hb.
    + destruct (json_Marshal rt request) as [b|e']; [|done].
      unfold post_request, NewRequest. by rewrite Hu.
Qed.

(** A client that answers 404 to everything and one that does so for GET
    requests only; and a base URL that does not parse. *)
Lemma request_handed_to_Do_witness :
  HandleGet Examples.runtime Examples.client_404 "http://localhost:5000/x" []
    = HandleGet Examples.runtime
        (New (fun req =>
                if decide (http.Method req = "GET")
                then Do Examples.client_404 req
                else Fail Examples.connection_refused)
           "http://elsewhere")
        "http://localhost:5000/x" []
  ∧ HandlePost Examples.runtime_bad_url Examples.client_200 "::" (VString "x")
    = HandlePost Examples.runtime_bad_url Examples.client_down "::" (VString "x").
Proof.
  split.
  - by apply (proj1 (request_handed_to_Do Examples.runtime "http://localhost:5000/x"
                       Examples.client_404
                       (New (fun req =>
                               if decide (http.Method req = "GET")
                               then Do Examples.client_404 req
                               else Fail Examples.connection_refused)
                          "http://elsewhere"))
                [] {| http.Location := "http://localhost:5000/x";
                      http.RawQuery := "" |}).
  - apply (proj2 (proj2 (proj2 (request_handed_to_Do Examples.runtime_bad_url "::"
                                  Examples.client_200 Examples.client_down)))
             (VString "x") (LibraryError "url" "invalid URL")).
    by right.
Defined.

(** * Further properties of the endpoint operations *)

Lemma unmarshal_field_decoded {T F : Type}
    (decode : list byte → T → T * option error) (zero : T) (field : T → F)
    (body : list byte) (r : T) :
  json.Unmarshal decode body zero = (r, None) →
  unmarshal_field decode zero field (Some body) = (Some (field r), None).
Proof. unfold unmarshal_field, bytes_of. simpl. by intros ->. Qed.

Lemma unmarshal_field_rejected {T F : Type}
    (decode : list byte → T → T * option error) (zero : T) (field : T → F)
    (body : list byte) (r : T) (e : error) :
  json.Unmarshal decode body zero = (r, Some e) →
  unmarshal_field decode zero field (Some body) = (None, Some e).
Proof. unfold unmarshal_field, bytes_of. simpl. by intros ->. Qed.

Lemma decoded_value_xor_error {T F : Type}
    (decode : list byte → T → T * option error) (zero : T) (field : T → F)
    (d : option (list byte) * option error) :
  value_xor_error
    (match d with
     | (body, None) => unmarshal_field decode zero field body
     | (_, Some err) => (None, Some err)
     end).
Proof.
  destruct d as [body [e|]]; [right; by exists e|].
  unfold unmarshal_field.
  destruct (json.Unmarshal decode (bytes_of body) zero) as [r [e|]].
  - right. by exists e.
  - left. by exists (field r).
Qed.

(** X12.  Every operation that decodes a response returns either a non-nil
    result with a nil error or a nil result with a non-nil error, whatever
    the service answers: a caller that finds a nil error may use the
    result, and never gets both or neither. *)
Theorem endpoint_value_xor_error (rt : Runtime) (p : Client) :
  (∀ experimentId, value_xor_error (GetExperiment rt p experimentId))
  ∧ (∀ name, value_xor_error (GetExperimentsByName rt p name))
  ∧ (∀ name, value_xor_error (CreateExperiment rt p name))
  ∧ (∀ experimentId startTime tags,
       value_xor_error (CreateRunWithStartTime rt p experimentId startTime tags))
  ∧ (∀ experimentId tags, value_xor_error (CreateRun rt p experimentId tags))
  ∧ (∀ runId status endTime,
       value_xor_error (UpdateRunWithEndTime rt p runId status endTime))
  ∧ (∀ runId status, value_xor_error (UpdateRun rt p runId status))
  ∧ (∀ runId, value_xor_error (GetRun rt p runId)).
Proof.
  repeat match goal with |- _ ∧ _ => split end; intros;
    apply decoded_value_xor_error.
Qed.

Ltac decode_body H :=
  first [ rewrite (HandleGet_answered _ _ _ _ _ _ H)
        | rewrite (HandlePost_answered _ _ _ _ _ _ _ ltac:(eassumption) H) ];
  rewrite decide_True by done;
  first [ by apply unmarshal_field_decoded
        | by eapply unmarshal_field_rejected ].

(** X13.  When the exchange is answered with status 200 and
    [json.Unmarshal] accepts the body, each operation returns a nil error
    and the field of the decoded response that the API table names: the
    experiment, the experiment id, the run, the run info. *)
Theorem endpoint_returns_decoded_field
    (rt : Runtime) (p : Client) (body : list byte) :
  (∀ experimentId r,
     answered p
       (get_request rt (BaseUrl p +:+ "/api/2.0/mlflow/experiments/get")
          [("experiment_id", VString experimentId)])
       http.StatusOK body →
     json.Unmarshal (decode_ResponseExperiment rt) body zero_ResponseExperiment
       = (r, None) →
     GetExperiment rt p experimentId
       = (Some (ResponseExperiment_Experiment r), None))
  ∧ (∀ name r,
       answered p
         (get_request rt
            (BaseUrl p +:+ "/api/2.0/mlflow/experiments/get-by-name")
            [("experiment_name", VString name)])
         http.StatusOK body →
       json.Unmarshal (decode_ResponseExperiment rt) body zero_ResponseExperiment
         = (r, None) →
       GetExperimentsByName rt p name
         = (Some (ResponseExperiment_Experiment r), None))
  ∧ (∀ name b r,
       json_Marshal rt (VMap [("name", VString name)]) = Ok b →
       answered p
         (post_request rt (BaseUrl p +:+ "/api/2.0/mlflow/experiments/create") b)
         http.StatusOK body →
       json.Unmarshal (decode_ResponseCreateExperiment rt) body
         zero_ResponseCreateExperiment = (r, None) →
       CreateExperiment rt p name
         = (Some (ResponseCreateExperiment_ExperimentId r), None))
  ∧ (∀ experimentId startTime tags b r,
       json_Marshal rt
         (VMap [("experiment_id", VString experimentId);
                ("start_time", VInt64 startTime);
                ("tags", VOther (OTags tags))]) = Ok b →
       answered p
         (post_request rt (BaseUrl p +:+ "/api/2.0/mlflow/runs/create") b)
         http.StatusOK body →
       json.Unmarshal (decode_ResponseRun rt) body zero_ResponseRun = (r, None) →
       CreateRunWithStartTime rt p experimentId startTime tags
         = (Some (ResponseRun_Run r), None))
  ∧ (∀ runId status endTime b r,
       json_Marshal rt
         (VMap [("run_id", VString runId);
                ("status", VOther (ORunStatus status));
                ("end_time", VInt64 endTime)]) = Ok b →
       answered p
         (post_request rt (BaseUrl p +:+ "/api/2.0/mlflow/runs/update") b)
         http.StatusOK body →
       json.Unmarshal (decode_ResponseRunUpdate rt) body zero_ResponseRunUpdate
         = (r, None) →
       UpdateRunWithEndTime rt p runId status endTime
         = (Some (ResponseRunUpdate_Info r), None))
  ∧ (∀ runId r,
       answered p
         (get_request rt (BaseUrl p +:+ "/api/2.0/mlflow/runs/get")
            [("run_id", VString runId)])
         http.StatusOK body →
       json.Unmarshal (decode_ResponseRun rt) body zero_ResponseRun = (r, None) →
       GetRun rt p runId = (Some (ResponseRun_Run r), None)).
Proof.
  repeat match goal with |- _ ∧ _ => split end.
  - intros experimentId r H Hr. unfold GetExperiment. decode_body H.
  - intros name r H Hr. unfold GetExperimentsByName. decode_body H.
  - intros name b r Hb H Hr. unfold CreateExperiment. decode_body H.
  - intros experimentId startTime tags b r Hb H Hr.
    unfold CreateRunWithStartTime. decode_body H.
  - intros runId status endTime b r Hb H Hr.
    unfold UpdateRunWithEndTime. decode_body H.
  - intros runId r H Hr. unfold GetRun. decode_body H.
Qed.

(** The service that answers 200, decoded into experiment 1. *)
Lemma endpoint_returns_decoded_field_witness :
  GetExperiment Examples.runtime_experiment Examples.client_200 "1"
    = (Some Examples.experiment_1, None)
  ∧ CreateExperiment Examples.runtime_experiment Examples.client_200 "test4"
    = (Some "1", None).
Proof.
  split.
  - apply (proj1 (endpoint_returns_decoded_field Examples.runtime_experiment
                    Examples.client_200 (Examples.text "{}"))
             "1" {| ResponseExperiment_Experiment := Examples.experiment_1 |});
      [|reflexivity].
    do 2 eexists. by repeat split.
  - apply (proj1 (proj2 (proj2 (endpoint_returns_decoded_field
                                  Examples.runtime_experiment
                                  Examples.client_200 (Examples.text "{}"))))
             "test4" (Examples.text "{}")
             {| ResponseCreateExperiment_ExperimentId := "1" |});
      [reflexivity| |reflexivity].
    do 2 eexists. by repeat split.
Defined.

(** X14.  When the exchange is answered with status 200 and
    [json.Unmarshal] reports an error for the body (a body that is not
    valid JSON, an empty body, a field of the wrong type), each operation
    returns that error and a nil result: whatever was decoded before the
    error is not handed out. *)
Theorem endpoint_discards_undecodable_body
    (rt : Runtime) (p : Client) (body : list byte) (e : error) :
  (∀ experimentId r,
     answered p
       (get_request rt (BaseUrl p +:+ "/api/2.0/mlflow/experiments/get")
          [("experiment_id", VString experimentId)])
       http.StatusOK body →
     json.Unmarshal (decode_ResponseExperiment rt) body zero_ResponseExperiment
       = (r, Some e) →
     GetExperiment rt p experimentId = (None, Some e))
  ∧ (∀ name r,
       answered p
         (get_request rt
            (BaseUrl p +:+ "/api/2.0/mlflow/experiments/get-by-name")
            [("experiment_name", VString name)])
         http.StatusOK body →
       json.Unmarshal (decode_ResponseExperiment rt) body zero_ResponseExperiment
         = (r, Some e) →
       GetExperimentsByName rt p name = (None, Some e))
  ∧ (∀ name b r,
       json_Marshal rt (VMap [("name", VString name)]) = Ok b →
       answered p
         (post_request rt (BaseUrl p +:+ "/api/2.0/mlflow/experiments/create") b)
         http.StatusOK body →
       json.Unmarshal (decode_ResponseCreateExperiment rt) body
         zero_ResponseCreateExperiment = (r, Some e) →
       CreateExperiment rt p name = (None, Some e))
  ∧ (∀ experimentId startTime tags b r,
       json_Marshal rt
         (VMap [("experiment_id", VString experimentId);
                ("start_time", VInt64 startTime);
                ("tags", VOther (OTags tags))]) = Ok b →
       answered p
         (post_request rt (BaseUrl p +:+ "/api/2.0/mlflow/runs/create") b)
         http.StatusOK body →
       json.Unmarshal (decode_ResponseRun rt) body zero_ResponseRun
         = (r, Some e) →
       CreateRunWithStartTime rt p experimentId startTime tags = (None, Some e))
  ∧ (∀ runId status endTime b r,
       json_Marshal rt
         (VMap [("run_id", VString runId);
                ("status", VOther (ORunStatus status));
                ("end_time", VInt64 endTime)]) = Ok b →
       answered p
         (post_request rt (BaseUrl p +:+ "/api/2.0/mlflow/runs/update") b)
         http.StatusOK body →
       json.Unmarshal (decode_ResponseRunUpdate rt) body zero_ResponseRunUpdate
         = (r, Some e) →
       UpdateRunWithEndTime rt p runId status endTime = (None, Some e))
  ∧ (∀ runId r,
       answered p
         (get_request rt (BaseUrl p +:+ "/api/2.0/mlflow/runs/get")
            [("run_id", VString runId)])
         http.StatusOK body →
       json.Unmarshal (decode_ResponseRun rt) body zero_ResponseRun
         = (r, Some e) →
       GetRun rt p runId = (None, Some e)).
Proof.
  repeat match goal with |- _ ∧ _ => split end.
  - intros experimentId r H Hr. unfold GetExperiment. decode_body H.
  - intros name r H Hr. unfold GetExperimentsByName. decode_body H.
  - intros name b r Hb H Hr. unfold CreateExperiment. decode_body H.
  - intros experimentId startTime tags b r Hb H Hr.
    unfold CreateRunWithStartTime. decode_body H.
  - intros runId status endTime b r Hb H Hr.
    unfold UpdateRunWithEndTime. decode_body H.
  - intros runId r H Hr. unfold GetRun. decode_body H.
Qed.

(** A 200 answer with an HTML page, one with an empty body, and a decoder
    that reports a field of the wrong type after filling the experiment. *)
Lemma endpoint_discards_undecodable_body_witness :
  GetExperiment Examples.runtime Examples.client_200_html "1"
    = (None,
       Some (SyntaxError
               (InvalidCharacter "<" "looking for beginning of value") 1))
  ∧ GetRun Examples.runtime Examples.client_200_empty "r1"
    = (None, Some (SyntaxError UnexpectedEnd 0))
  ∧ GetExperiment Examples.runtime_type_mismatch Examples.client_200 "1"
    = (None, Some Examples.type_mismatch).
Proof.
  split; [|split].
  - apply (proj1 (endpoint_discards_undecodable_body Examples.runtime
                    Examples.client_200_html (Examples.text "<html>login</html>")
                    _)
             "1" zero_ResponseExperiment); [|reflexivity].
    do 2 eexists. by repeat split.
  - apply (proj2 (proj2 (proj2 (proj2 (proj2
             (endpoint_discards_undecodable_body Examples.runtime
                Examples.client_200_empty [] _)))))
             "r1" zero_ResponseRun); [|reflexivity].
    do 2 eexists. by repeat split.
  - apply (proj1 (endpoint_discards_undecodable_body Examples.runtime_type_mismatch
                    Examples.client_200 (Examples.text "{}") _)
             "1" {| ResponseExperiment_Experiment := Examples.experiment_1 |});
      [|reflexivity].
    do 2 eexists. by repeat split.
Defined.

Ltac propagate_failure H :=
  first [ rewrite (HandleGet_failure _ _ _ _ _ H)
        | rewrite (HandlePost_failure _ _ _ _ _ _ ltac:(eassumption) H)
        | rewrite HandlePost_outcome, H ];
  reflexivity.

(** X15.  An error of the dispatcher passes through every operation
    unchanged and with a nil result, without any decoding: the error of a
    failed exchange for the operations that GET, and the error of a failed
    [json.Marshal] or of a failed exchange for the operations that POST. *)
Theorem endpoint_passes_dispatch_error_on
    (rt : Runtime) (p : Client) (e : error) :
  (∀ experimentId,
     transport_failure p
       (get_request rt (BaseUrl p +:+ "/api/2.0/mlflow/experiments/get")
          [("experiment_id", VString experimentId)]) e →
     GetExperiment rt p experimentId = (None, Some e))
  ∧ (∀ name,
       transport_failure p
         (get_request rt
            (BaseUrl p +:+ "/api/2.0/mlflow/experiments/get-by-name")
            [("experiment_name", VString name)]) e →
       GetExperimentsByName rt p name = (None, Some e))
  ∧ (∀ runId,
       transport_failure p
         (get_request rt (BaseUrl p +:+ "/api/2.0/mlflow/runs/get")
            [("run_id", VString runId)]) e →
       GetRun rt p runId = (None, Some e))
  ∧ (∀ name,
       json_Marshal rt (VMap [("name", VString name)]) = Fail e
       ∨ (∃ b, json_Marshal rt (VMap [("name", VString name)]) = Ok b
               ∧ transport_failure p
                   (post_request rt
                      (BaseUrl p +:+ "/api/2.0/mlflow/experiments/create") b) e) →
       CreateExperiment rt p name = (None, Some e))
  ∧ (∀ experimentId startTime tags,
       json_Marshal rt
         (VMap [("experiment_id", VString experimentId);
                ("start_time", VInt64 startTime);
                ("tags", VOther (OTags tags))]) = Fail e
       ∨ (∃ b, json_Marshal rt
                 (VMap [("experiment_id", VString experimentId);
                        ("start_time", VInt64 startTime);
                        ("tags", VOther (OTags tags))]) = Ok b
               ∧ transport_failure p
                   (post_request rt
                      (BaseUrl p +:+ "/api/2.0/mlflow/runs/create") b) e) →
       CreateRunWithStartTime rt p experimentId startTime tags = (None, Some e))
  ∧ (∀ runId status endTime,
       json_Marshal rt
         (VMap [("run_id", VString runId);
                ("status", VOther (ORunStatus status));
                ("end_time", VInt64 endTime)]) = Fail e
       ∨ (∃ b, json_Marshal rt
                 (VMap [("run_id", VString runId);
                        ("status", VOther (ORunStatus status));
                        ("end_time", VInt64 endTime)]) = Ok b
               ∧ transport_failure p
                   (post_request rt
                      (BaseUrl p +:+ "/api/2.0/mlflow/runs/update") b) e) →
       UpdateRunWithEndTime rt p runId status endTime = (None, Some e)).
Proof.
  repeat match goal with |- _ ∧ _ => split end.
  - intros experimentId H. unfold GetExperiment. propagate_failure H.
  - intros name H. unfold GetExperimentsByName. propagate_failure H.
  - intros runId H. unfold GetRun. propagate_failure H.
  - intros name [H|(b & Hb & H)]; unfold CreateExperiment; propagate_failure H.
  - intros experimentId startTime tags [H|(b & Hb & H)];
      unfold CreateRunWithStartTime; propagate_failure H.
  - intros runId status endTime [H|(b & Hb & H)];
      unfold UpdateRunWithEndTime; propagate_failure H.
Qed.

(** An unreachable service, and an answer that breaks off. *)
Lemma endpoint_passes_dispatch_error_on_witness :
  GetExperiment Examples.runtime Examples.client_down "1"
    = (None, Some Examples.connection_refused)
  ∧ CreateExperiment Examples.runtime Examples.client_truncated "test4"
    = (None, Some Examples.unexpected_EOF).
Proof.
  split.
  - apply (proj1 (endpoint_passes_dispatch_error_on Examples.runtime
                    Examples.client_down Examples.connection_refused)).
    by eapply send_fails.
  - apply (proj1 (proj2 (proj2 (proj2 (endpoint_passes_dispatch_error_on
             Examples.runtime Examples.client_truncated
             Examples.unexpected_EOF))))).
    right. exists (Examples.text "{}"). split; [done|]. by eapply read_fails.
Defined.
